(** * Telegraf pipeline runtime: running aggregator and fan-out collection

    A shallow embedding of [models.RunningAggregator] (window admission in
    [Add], window advance in [Push]) and of the Kubernetes input's [Gather]
    fan-out, together with the properties the design document states about
    them. *)

From Stdlib Require Import ZArith Lia Bool List Ascii String.
From stdpp Require Import base option list gmap strings.

Local Open Scope Z_scope.

(** ** Go's [time] package, as far as the aggregator uses it *)

Module GoTime.

(** A [time.Time] is modelled by its wall-clock instant: nanoseconds elapsed
    since the zero Time (January 1, year 1, 00:00:00 UTC), as an unbounded
    integer; the ends of the representable range, hundreds of billions of
    years away, are out of the model.  The optional monotonic reading is not
    carried, so stripping it is the identity.  A [time.Duration] is an int64
    count of nanoseconds. *)
Abbreviation Time := Z (only parsing).
Abbreviation Duration := Z (only parsing).

Definition Nanosecond : Duration := 1.
Definition Second : Duration := 1000000000.

Definition min_int64 : Z := - 2 ^ 63.
Definition max_int64 : Z := 2 ^ 63 - 1.

(** Two's complement wrap-around of int64 arithmetic. *)
Definition wrap64 (z : Z) : Z := (z + 2 ^ 63) mod 2 ^ 64 - 2 ^ 63.

(** Unary minus on an int64, as in [-r.Config.Grace]. *)
Definition neg64 (d : Duration) : Duration := wrap64 (- d).

(** [t.Add(d)] *)
Definition Add (t : Time) (d : Duration) : Time := t + d.

(** [t.Before(u)] and [t.After(u)] *)
Definition Before (t u : Time) : bool := t <? u.
Definition After (t u : Time) : bool := u <? t.

(** [t.Truncate(d)]: rounds [t] down to a multiple of [d] since the zero
    Time; for [d <= 0] it returns [t] stripped of its monotonic reading but
    otherwise unchanged. *)
Definition Truncate (t : Time) (d : Duration) : Time :=
  if d <=? 0 then t else Add t (- (t mod d)).

(** [d.Nanoseconds()] *)
Definition Nanoseconds (d : Duration) : Z := d.

End GoTime.

(** ** The plugin-facing interfaces of package [telegraf] *)

Module telegraf.

Abbreviation Err := string (only parsing).

(** Field values; a float64 is kept as its IEEE-754 bit pattern. *)
Inductive Value :=
| VFloat (bits : Z)
| VInt (i : Z)
| VUint (u : Z)
| VBool (b : bool)
| VString (s : string).

(** Identity under which a tracked metric reports its delivery. *)
Abbreviation TrackingID := positive (only parsing).

(** What the [telegraf.Metric] interface gives access to: name, tags,
    fields and timestamp of a data point. *)
Record Metric := {
  Name : string;
  TagList : list (string * string);
  FieldList : list (string * Value);
  MetricTime : GoTime.Time;
}.

(** A metric object: either a plain metric, or a tracking metric, which
    wraps a metric together with the identity its delivery is reported
    under. *)
Record Object := {
  metric : Metric;
  tracking : option TrackingID;
}.

(** Calls received by a [telegraf.Accumulator], oldest first.  Of the
    fields handed to [AddFields] the keys are recorded, not the readings. *)
Inductive AccCall :=
| AddFields (measurement : string) (fields : list string)
            (tags : gmap string string)
| AddMetric (m : Metric)
| AddError (err : option Err).

Abbreviation Accumulator := (list AccCall) (only parsing).

(** [telegraf.Aggregator]: the aggregation algorithm, with its private state
    of type [A].  [Push] has no result; whatever goes wrong is reported
    through the accumulator it is handed. *)
Class Aggregator (A : Type) := {
  Aggregator_Add : Metric -> A -> A;
  Aggregator_Push : Accumulator -> A -> A * Accumulator;
  Aggregator_Reset : A -> A;
}.

End telegraf.

(** ** Package [models]: the running aggregator *)

Module models.

Import GoTime telegraf.

(** Modelled from the spec: [models.Filter] is declared in a file that is
    not part of this development; [Add] uses its two methods.  [Select]
    (tag/field/name match) reads the metric and answers whether it matches,
    or fails; [Modify] (renaming/pruning) changes the metric it is handed, in
    place.  The filter itself is immutable after construction. *)
Record Filter := {
  Select : Metric -> bool * option Err;
  Modify : Metric -> Metric;
}.

(** [AggregatorConfig] is the common config for all aggregators. *)
Record AggregatorConfig := {
  cfgName : string;
  Source : string;
  Alias : string;
  ID : string;
  DropOriginal : bool;
  Period : Duration;
  Delay : Duration;
  Grace : Duration;
  LogLevel : string;
  NameOverride : string;
  MeasurementPrefix : string;
  MeasurementSuffix : string;
  Tags : list (string * string);
  cfgFilter : Filter;
}.

(** What the aggregator's logger is asked to write. *)
Inductive LogEntry :=
| ErrLogLevel (e : Err)
| ErrFilteringFailed (e : Err)
| DbgOutsideWindow (t periodStart periodEnd : Time) (grace : Duration)
| DbgUpdatedRange (start until : Time).

Definition isError (l : LogEntry) : bool :=
  match l with
  | ErrLogLevel _ | ErrFilteringFailed _ => true
  | _ => false
  end.

(** A [selfstat.Stat] holds an int64; [Incr] adds to it atomically. *)
Definition Incr (stat v : Z) : Z := wrap64 (stat + v).

Record RunningAggregator (A : Type) := {
  Aggregator : A;
  Config : AggregatorConfig;
  periodStart : Time;
  periodEnd : Time;
  log : list LogEntry;
  MetricsPushed : Z;
  MetricsFiltered : Z;
  MetricsDropped : Z;
  PushTime : Z;
  (** the "errors" statistic captured by the logger's error callback *)
  aggErrors : Z;
}.
Arguments Aggregator {A}. Arguments Config {A}.
Arguments periodStart {A}. Arguments periodEnd {A}.
Arguments log {A}. Arguments MetricsPushed {A}.
Arguments MetricsFiltered {A}. Arguments MetricsDropped {A}.
Arguments PushTime {A}. Arguments aggErrors {A}.

(** Metric objects are handed around by reference. *)
Abbreviation loc := positive (only parsing).

(** Calls the running aggregator makes on the window and on the wrapped
    algorithm, oldest first (ghost state, for statements about order). *)
Inductive Event :=
| EvUpdateWindow (start until : Time)
| EvAdd (p : loc) (o : Object)
| EvPush
| EvReset.

(** Everything a call on a running aggregator can read or write: the metric
    objects, the outstanding delivery obligations of tracked metrics, the
    aggregator itself, and the ghost trace. *)
Record World (A : Type) := {
  heap : gmap loc Object;
  obligations : gmap TrackingID nat;
  ra : RunningAggregator A;
  trace : list Event;
}.
Arguments heap {A}. Arguments obligations {A}.
Arguments ra {A}. Arguments trace {A}.

(** A plain metric object with the data of [o], and no tracking. *)
Definition untracked (o : Object) : Object :=
  {| metric := metric o; tracking := None |}.

(** *** State passing; a call that dereferences nothing panics ([None]) *)

Definition M (A T : Type) : Type := World A -> option (T * World A).

Definition ret {A T} (t : T) : M A T := fun w => Some (t, w).

Definition bind {A T U} (c : M A T) (k : T -> M A U) : M A U :=
  fun w => match c w with
           | Some (t, w') => k t w'
           | None => None
           end.

#[global] Instance M_ret {A} : MRet (M A) := fun T => @ret A T.
#[global] Instance M_bind {A} : MBind (M A) := fun T U k c => bind c k.

Section Methods.
Context {A : Type} `{!telegraf.Aggregator A}.

Definition self : M A (RunningAggregator A) := fun w => Some (ra w, w).

Definition update (f : RunningAggregator A -> RunningAggregator A) : M A unit :=
  fun w => Some (tt, {| heap := heap w; obligations := obligations w;
                        ra := f (ra w); trace := trace w |}).

Definition emit (e : Event) : M A unit :=
  fun w => Some (tt, {| heap := heap w; obligations := obligations w;
                        ra := ra w; trace := trace w ++ [e] |}).

(** Reading through a metric reference. *)
Definition deref (p : loc) : M A Object :=
  fun w => match heap w !! p with
           | Some m => Some (m, w)
           | None => None
           end.

(** In-place mutation, through the [telegraf.Metric] interface, of the
    object behind a reference; the tracking it may carry is out of reach
    of that interface. *)
Definition mutate (p : loc) (f : Metric -> Metric) : M A unit :=
  fun w => match heap w !! p with
           | Some o => Some (tt, {| heap := <[p := {| metric := f (metric o);
                                                      tracking := tracking o |}]>
                                              (heap w);
                                    obligations := obligations w;
                                    ra := ra w; trace := trace w |})
           | None => None
           end.

(** The first reference not in use. *)
Definition fresh_loc (h : gmap loc Object) : loc := fresh (dom h).

(** Modelled from the spec: package [metric] is not part of this
    development.  [metric.FromMetric] makes a copy of the metric but does not
    retain tracking: a new object with the same name, tags, fields and
    time, carrying no tracking identity, and registering no obligation. *)
Definition FromMetric (p : loc) : M A loc :=
  fun w => match heap w !! p with
           | Some o =>
               let c := fresh_loc (heap w) in
               Some (c, {| heap := <[c := untracked o]> (heap w);
                           obligations := obligations w;
                           ra := ra w; trace := trace w |})
           | None => None
           end.

(** Writing to the logger; an error entry also fires the error callback
    registered in [NewRunningAggregator]. *)
Definition logf (l : LogEntry) : M A unit :=
  update (fun r =>
    {| Aggregator := Aggregator r; Config := Config r;
       periodStart := periodStart r; periodEnd := periodEnd r;
       log := log r ++ [l];
       MetricsPushed := MetricsPushed r;
       MetricsFiltered := MetricsFiltered r;
       MetricsDropped := MetricsDropped r;
       PushTime := PushTime r;
       aggErrors := if isError l then Incr (aggErrors r) 1 else aggErrors r |}).

Definition MetricsFiltered_Incr (v : Z) : M A unit :=
  update (fun r =>
    {| Aggregator := Aggregator r; Config := Config r;
       periodStart := periodStart r; periodEnd := periodEnd r;
       log := log r;
       MetricsPushed := MetricsPushed r;
       MetricsFiltered := Incr (MetricsFiltered r) v;
       MetricsDropped := MetricsDropped r;
       PushTime := PushTime r; aggErrors := aggErrors r |}).

Definition MetricsDropped_Incr (v : Z) : M A unit :=
  update (fun r =>
    {| Aggregator := Aggregator r; Config := Config r;
       periodStart := periodStart r; periodEnd := periodEnd r;
       log := log r;
       MetricsPushed := MetricsPushed r;
       MetricsFiltered := MetricsFiltered r;
       MetricsDropped := Incr (MetricsDropped r) v;
       PushTime := PushTime r; aggErrors := aggErrors r |}).

Definition PushTime_Incr (v : Z) : M A unit :=
  update (fun r =>
    {| Aggregator := Aggregator r; Config := Config r;
       periodStart := periodStart r; periodEnd := periodEnd r;
       log := log r;
       MetricsPushed := MetricsPushed r;
       MetricsFiltered := MetricsFiltered r;
       MetricsDropped := MetricsDropped r;
       PushTime := Incr (PushTime r) v; aggErrors := aggErrors r |}).

Definition setAggregator (a : A) : M A unit :=
  update (fun r =>
    {| Aggregator := a; Config := Config r;
       periodStart := periodStart r; periodEnd := periodEnd r;
       log := log r;
       MetricsPushed := MetricsPushed r;
       MetricsFiltered := MetricsFiltered r;
       MetricsDropped := MetricsDropped r;
       PushTime := PushTime r; aggErrors := aggErrors r |}).

(** [r.Aggregator.Add(m)], [r.Aggregator.Push(acc)], [r.Aggregator.Reset()] *)
Definition callAdd (p : loc) : M A unit :=
  o ← deref p;
  r ← self;
  emit (EvAdd p o) ;;
  setAggregator (Aggregator_Add (metric o) (Aggregator r)).

Definition callPush (acc : Accumulator) : M A Accumulator :=
  r ← self;
  emit EvPush ;;
  let '(a, acc') := Aggregator_Push acc (Aggregator r) in
  setAggregator a ;;
  mret acc'.

Definition callReset : M A unit :=
  r ← self;
  emit EvReset ;;
  setAggregator (Aggregator_Reset (Aggregator r)).

(** [func NewRunningAggregator(aggregator, config)]; [levelErr] is what
    [logger.SetLogLevel(config.LogLevel)] answers. *)
Definition NewRunningAggregator (aggregator : A) (config : AggregatorConfig)
    (levelErr : option Err) : RunningAggregator A :=
  {| Aggregator := aggregator;
     Config := config;
     periodStart := 0;
     periodEnd := 0;
     log := match levelErr with Some e => [ErrLogLevel e] | None => [] end;
     MetricsPushed := 0;
     MetricsFiltered := 0;
     MetricsDropped := 0;
     PushTime := 0;
     aggErrors := match levelErr with Some _ => Incr 0 1 | None => 0 end |}.

(** [func (r *RunningAggregator) EndPeriod() time.Time] *)
Definition EndPeriod : M A Time :=
  r ← self; mret (periodEnd r).

(** [func (r *RunningAggregator) UpdateWindow(start, until time.Time)] *)
Definition UpdateWindow (start until : Time) : M A unit :=
  update (fun r =>
    {| Aggregator := Aggregator r; Config := Config r;
       periodStart := start; periodEnd := until;
       log := log r;
       MetricsPushed := MetricsPushed r;
       MetricsFiltered := MetricsFiltered r;
       MetricsDropped := MetricsDropped r;
       PushTime := PushTime r; aggErrors := aggErrors r |}) ;;
  emit (EvUpdateWindow start until) ;;
  logf (DbgUpdatedRange start until).

(** [func (r *RunningAggregator) Add(m telegraf.Metric) bool]: add a metric
    to the aggregator and return true if the original metric should be
    dropped. *)
Definition Add (m : loc) : M A bool :=
  r ← self;
  orig ← deref m;
  let '(ok, err) := Select (cfgFilter (Config r)) (metric orig) in
  let selected : M A bool :=
    (* Make a copy of the metric but don't retain tracking. *)
    m ← FromMetric m;
    mutate m (Modify (cfgFilter (Config r))) ;;
    mm ← deref m;
    if (length (FieldList (metric mm)) =? 0)%nat then
      MetricsFiltered_Incr 1 ;;
      mret (DropOriginal (Config r))
    else
      (* r.Lock(); defer r.Unlock() *)
      r ← self;
      if Before (MetricTime (metric mm))
                (GoTime.Add (periodStart r) (neg64 (Grace (Config r))))
         || After (MetricTime (metric mm))
                  (GoTime.Add (periodEnd r) (Delay (Config r)))
      then
        logf (DbgOutsideWindow (MetricTime (metric mm)) (periodStart r) (periodEnd r)
                               (Grace (Config r))) ;;
        MetricsDropped_Incr 1 ;;
        mret (DropOriginal (Config r))
      else
        callAdd m ;;
        mret (DropOriginal (Config r)) in
  match err with
  | Some e => logf (ErrFilteringFailed e) ;; selected
  | None => if negb ok then mret false else selected
  end.

(** [func (r *RunningAggregator) Push(acc telegraf.Accumulator)]; [now] is
    the reading of the wall clock on entry and [elapsed] the time measured
    around the algorithm's Push. *)
Definition Push (now : Time) (elapsed : Duration) (acc : Accumulator)
    : M A Accumulator :=
  r ← self;
  let since := periodEnd r in
  let until := GoTime.Add (periodEnd r) (Period (Config r)) in
  let nowWall := Truncate now (-1) in
  let '(since, until) :=
    if Before nowWall (Truncate since (-1))
       || After nowWall (Truncate until (-1))
    then
      let since := Truncate nowWall (Period (Config r)) in
      (since, GoTime.Add since (Period (Config r)))
    else (since, until) in
  UpdateWindow since until ;;
  acc' ← callPush acc;
  PushTime_Incr (Nanoseconds elapsed) ;;
  callReset ;;
  mret acc'.

End Methods.

End models.

(** ** Vocabulary for the statements about [Add] and [Push] *)

Module window.

Import GoTime telegraf models.

(** The selection step of [Add] lets a metric through when [Select] accepts
    it, and also when [Select] fails. *)
Definition passes (f : Filter) (m : Metric) : bool :=
  match Select f m with
  | (_, Some _) => true
  | (ok, None) => ok
  end.

(** The error [Select] answers with, if any. *)
Definition select_error (f : Filter) (m : Metric) : option Err :=
  snd (Select f m).

(** The object [Add] works on after copying and modifying. *)
Definition prepared (f : Filter) (o : Object) : Object :=
  {| metric := Modify f (metric o); tracking := None |}.

(** The closed admission range of a window. *)
Definition admitted (cfg : AggregatorConfig) (periodStart periodEnd t : Time) : Prop :=
  periodStart - Grace cfg <= t <= periodEnd + Delay cfg.

(** The four ways a call of [Add] can end. *)
Inductive Outcome := NotSelected | Filtered | OutOfWindow | Accepted.

Definition outcome (cfg : AggregatorConfig) (periodStart periodEnd : Time)
    (o : Object) : Outcome :=
  let mm := metric (prepared (cfgFilter cfg) o) in
  if negb (passes (cfgFilter cfg) (metric o)) then NotSelected
  else if (length (FieldList mm) =? 0)%nat then Filtered
  else if Before (MetricTime mm) (GoTime.Add periodStart (neg64 (Grace cfg)))
          || After (MetricTime mm) (GoTime.Add periodEnd (Delay cfg))
  then OutOfWindow
  else Accepted.

(** The drop-original answer that goes with an outcome. *)
Definition drop_decision (cfg : AggregatorConfig) (o : Outcome) : bool :=
  match o with
  | NotSelected => false
  | _ => DropOriginal cfg
  end.

(** How often a trace updates the window. *)
Definition is_update (e : Event) : bool :=
  match e with EvUpdateWindow _ _ => true | _ => false end.

Definition count_updates (tr : list Event) : nat :=
  length (List.filter is_update tr).

(** The clock test of [Push] as the design document words it: the wall
    clock and both ends of the next window cut to whole seconds. *)
Definition outside_whole_seconds (periodEnd : Time) (period : Duration)
    (now : Time) : bool :=
  Before (Truncate now Second) (Truncate periodEnd Second)
  || After (Truncate now Second) (Truncate (GoTime.Add periodEnd period) Second).

(** The window invariant: the period ends one [Period] after it starts. *)
Definition window_ok {A} (r : RunningAggregator A) : Prop :=
  periodEnd r = periodStart r + Period (Config r).

Section Lifecycle.
Context {A : Type} `{!telegraf.Aggregator A}.

(** Modelled from the spec: the agent code that starts an aggregator is
    not part of this development.  The window is created at aggregator
    start with periodStart = now and periodEnd = now + period. *)
Definition StartWindow (now : Time) : M A unit :=
  r ← self;
  UpdateWindow now (GoTime.Add now (Period (Config r))).

(** The worlds an aggregator goes through: started once, then any
    sequence of [Add] and [Push] calls that return. *)
Inductive reachable : World A -> Prop :=
| reach_start h ob aggregator config levelErr now w :
    StartWindow now {| heap := h; obligations := ob;
                       ra := NewRunningAggregator aggregator config levelErr;
                       trace := [] |} = Some (tt, w) ->
    reachable w
| reach_heap w h ob :
    reachable w ->
    reachable {| heap := h; obligations := ob; ra := ra w; trace := trace w |}
| reach_Add w m b w' :
    reachable w -> Add m w = Some (b, w') -> reachable w'
| reach_Push w now elapsed acc acc' w' :
    reachable w -> Push now elapsed acc w = Some (acc', w') -> reachable w'.

(** What a call [Add m] leaves behind, in terms of its outcome. *)
Record Add_post (w : World A) (orig : Object) (w' : World A) : Prop := {
  post_Config : Config (ra w') = Config (ra w);
  post_periodStart : periodStart (ra w') = periodStart (ra w);
  post_periodEnd : periodEnd (ra w') = periodEnd (ra w);
  post_obligations : obligations w' = obligations w;
  post_MetricsPushed : MetricsPushed (ra w') = MetricsPushed (ra w);
  post_PushTime : PushTime (ra w') = PushTime (ra w);
  post_heap :
    heap w' =
    match outcome (Config (ra w)) (periodStart (ra w)) (periodEnd (ra w)) orig with
    | NotSelected => heap w
    | _ => <[fresh_loc (heap w) := prepared (cfgFilter (Config (ra w))) orig]> (heap w)
    end;
  post_trace :
    trace w' =
    trace w ++
    match outcome (Config (ra w)) (periodStart (ra w)) (periodEnd (ra w)) orig with
    | Accepted => [EvAdd (fresh_loc (heap w))
                         (prepared (cfgFilter (Config (ra w))) orig)]
    | _ => []
    end;
  post_Aggregator :
    Aggregator (ra w') =
    match outcome (Config (ra w)) (periodStart (ra w)) (periodEnd (ra w)) orig with
    | Accepted =>
        Aggregator_Add (metric (prepared (cfgFilter (Config (ra w))) orig))
                       (Aggregator (ra w))
    | _ => Aggregator (ra w)
    end;
  post_MetricsFiltered :
    MetricsFiltered (ra w') =
    match outcome (Config (ra w)) (periodStart (ra w)) (periodEnd (ra w)) orig with
    | Filtered => Incr (MetricsFiltered (ra w)) 1
    | _ => MetricsFiltered (ra w)
    end;
  post_MetricsDropped :
    MetricsDropped (ra w') =
    match outcome (Config (ra w)) (periodStart (ra w)) (periodEnd (ra w)) orig with
    | OutOfWindow => Incr (MetricsDropped (ra w)) 1
    | _ => MetricsDropped (ra w)
    end;
  post_log :
    log (ra w') =
    log (ra w) ++
    match select_error (cfgFilter (Config (ra w))) (metric orig) with
    | Some e => [ErrFilteringFailed e]
    | None => []
    end ++
    match outcome (Config (ra w)) (periodStart (ra w)) (periodEnd (ra w)) orig with
    | OutOfWindow =>
        [DbgOutsideWindow
           (MetricTime (metric (prepared (cfgFilter (Config (ra w))) orig)))
           (periodStart (ra w)) (periodEnd (ra w)) (Grace (Config (ra w)))]
    | _ => []
    end;
}.

End Lifecycle.

End window.

(** ** Package [kubernetes]: one summary request per node, in parallel *)

Module kubernetes.

Import telegraf.
Local Open Scope string_scope.
Local Open Scope list_scope.
Local Open Scope stdpp_scope.

(** The replies of the kubelet, as far as [gatherSummary] looks at them;
    the numeric readings are left out. *)
Record containerMetrics := { container_Name : string }.
Record volumeMetrics := { volume_Name : string }.
Record podReference := { PodRef_Name : string; PodRef_Namespace : string }.
Record podMetrics := {
  PodRef : podReference;
  Containers : list containerMetrics;
  Volumes : list volumeMetrics;
}.
Record nodeMetrics := {
  NodeName : string;
  SystemContainers : list containerMetrics;
}.
Record summaryMetrics := { Node : nodeMetrics; Pods : list podMetrics }.

Record containerSpec := { spec_Name : string; Image : string }.
Record item := {
  Metadata_Name : string;
  Metadata_Namespace : string;
  Metadata_Labels : gmap string string;
  Spec_Containers : list containerSpec;
}.

(** [v1.NodeAddress] and the nodes the API server lists. *)
Inductive NodeAddressType := NodeInternalIP | NodeExternalIP | NodeHostName.
Record NodeAddress := { Type_ : NodeAddressType; Address : string }.
Record K8sNode := { node_Name : string; Status_Addresses : list NodeAddress }.

(** [Kubernetes] represents the config object for the plugin; [labelFilter]
    is the compiled include/exclude filter, by its [Match]. *)
Record Kubernetes := {
  URL : string;
  BearerToken : string;
  NodeMetricName : string;
  LabelInclude : list string;
  LabelExclude : list string;
  labelFilter : string -> bool;
}.

(** What the outside world answers during one collection cycle: the node
    list of the API server (or the error of reaching it), and the outcome
    of [loadJSON] for a URL. *)
Record Cluster := {
  listNodes : Err + list K8sNode;
  loadSummary : string -> Err + summaryMetrics;
  loadPods : string -> Err + list item;
}.

(** [func getNodeAddress(addresses []v1.NodeAddress) string]: prefer
    internal addresses, if none found, use ExternalIP. *)
Fixpoint getNodeAddress_loop (addresses : list NodeAddress)
    (extAddresses : list string) : string :=
  match addresses with
  | addr :: rest =>
      match Type_ addr with
      | NodeInternalIP => Address addr
      | _ => getNodeAddress_loop rest (extAddresses ++ [Address addr])
      end
  | [] =>
      match extAddresses with
      | a :: _ => a
      | [] => ""
      end
  end.

Definition getNodeAddress (addresses : list NodeAddress) : string :=
  getNodeAddress_loop addresses [].

(** [func getNodeURLs(log telegraf.Logger) ([]string, error)]; the warning
    logged for a node without address is left out. *)
Definition getNodeURLs (c : Cluster) : Err + list string :=
  match listNodes c with
  | inl err => inl err
  | inr nodes =>
      inr (foldl (fun nodeUrls n =>
                    let address := getNodeAddress (Status_Addresses n) in
                    if String.eqb address "" then nodeUrls
                    else nodeUrls ++ ["https://" +:+ address +:+ ":10250"])
                 [] nodes)
  end.

Definition containerFields : list string :=
  [ "cpu_usage_nanocores"; "cpu_usage_core_nanoseconds"; "memory_usage_bytes";
    "memory_working_set_bytes"; "memory_rss_bytes"; "memory_page_faults";
    "memory_major_page_faults"; "rootfs_available_bytes"; "rootfs_capacity_bytes";
    "logsfs_available_bytes"; "logsfs_capacity_bytes" ].

(** [func buildSystemContainerMetrics(summaryMetrics, acc)] *)
Definition buildSystemContainerMetrics (sm : summaryMetrics) : list AccCall :=
  map (fun container =>
         AddFields "kubernetes_system_container" containerFields
           (<["node_name" := NodeName (Node sm)]>
              (<["container_name" := container_Name container]> ∅)))
      (SystemContainers (Node sm)).

Definition nodeFields : list string :=
  [ "cpu_usage_nanocores"; "cpu_usage_core_nanoseconds"; "memory_available_bytes";
    "memory_usage_bytes"; "memory_working_set_bytes"; "memory_rss_bytes";
    "memory_page_faults"; "memory_major_page_faults"; "network_rx_bytes";
    "network_rx_errors"; "network_tx_bytes"; "network_tx_errors";
    "fs_available_bytes"; "fs_capacity_bytes"; "fs_used_bytes";
    "runtime_image_fs_available_bytes"; "runtime_image_fs_capacity_bytes";
    "runtime_image_fs_used_bytes" ].

(** [func buildNodeMetrics(summaryMetrics, acc, metricName)] *)
Definition buildNodeMetrics (sm : summaryMetrics) (metricName : string)
    : list AccCall :=
  [ AddFields metricName nodeFields (<["node_name" := NodeName (Node sm)]> ∅) ].

(** [strings.Split(s, sep)] for a one-character separator. *)
Fixpoint Split (s : string) (sep : Ascii.ascii) : list string :=
  match s with
  | EmptyString => [EmptyString]
  | String c rest =>
      if Ascii.eqb c sep then EmptyString :: Split rest sep
      else match Split rest sep with
           | tok :: toks => String c tok :: toks
           | [] => [String c EmptyString]
           end
  end.

Definition podContainerFields : list string :=
  [ "cpu_usage_nanocores"; "cpu_usage_core_nanoseconds"; "memory_usage_bytes";
    "memory_working_set_bytes"; "memory_rss_bytes"; "memory_page_faults";
    "memory_major_page_faults"; "rootfs_available_bytes"; "rootfs_capacity_bytes";
    "rootfs_used_bytes"; "logsfs_available_bytes"; "logsfs_capacity_bytes";
    "logsfs_used_bytes" ].

(** Writing every entry of [src] into [tags]. *)
Definition copyInto (src tags : gmap string string) : gmap string string :=
  src ∪ tags.

(** [func buildPodMetrics(summaryMetrics, podInfo, labelFilter, acc)] *)
Definition buildPodMetrics (sm : summaryMetrics) (podInfo : list item)
    (labelMatch : string -> bool) : list AccCall :=
  flat_map (fun pod =>
    let '(podLabels, containerImages) :=
      foldl (fun '((podLabels, containerImages)
                   : gmap string string * gmap string string) info =>
               if String.eqb (Metadata_Name info) (PodRef_Name (PodRef pod))
                  && String.eqb (Metadata_Namespace info)
                                (PodRef_Namespace (PodRef pod))
               then
                 (copyInto (filter (fun kv => labelMatch kv.1 = true)
                                   (Metadata_Labels info)) podLabels,
                  foldl (fun (images : gmap string string) v =>
                           <[spec_Name v := Image v]> images)
                        containerImages (Spec_Containers info))
               else (podLabels, containerImages))
            ((∅, ∅) : gmap string string * gmap string string) podInfo in
    map (fun container =>
           let tags : gmap string string :=
             <["node_name" := NodeName (Node sm)]>
               (<["namespace" := PodRef_Namespace (PodRef pod)]>
                  (<["container_name" := container_Name container]>
                     (<["pod_name" := PodRef_Name (PodRef pod)]> ∅))) in
           let tags :=
             (* the one entry of containerImages under the container's name *)
             match containerImages !! container_Name container with
             | Some v =>
                 let tags := <["image" := v]> tags in
                 match Split v ":"%char with
                 | [_; version] => <["version" := version]> tags
                 | _ => tags
                 end
             | None => tags
             end in
           AddFields "kubernetes_pod_container" podContainerFields
                     (copyInto podLabels tags))
        (Containers pod)
    ++ map (fun volume =>
              AddFields "kubernetes_pod_volume"
                ["available_bytes"; "capacity_bytes"; "used_bytes"]
                (copyInto podLabels
                   (<["node_name" := NodeName (Node sm)]>
                      (<["pod_name" := PodRef_Name (PodRef pod)]>
                         (<["namespace" := PodRef_Namespace (PodRef pod)]>
                            (<["volume_name" := volume_Name volume]> ∅))))))
           (Volumes pod)
    ++ [ AddFields "kubernetes_pod_network"
           ["rx_bytes"; "rx_errors"; "tx_bytes"; "tx_errors"]
           (copyInto podLabels
              (<["node_name" := NodeName (Node sm)]>
                 (<["pod_name" := PodRef_Name (PodRef pod)]>
                    (<["namespace" := PodRef_Namespace (PodRef pod)]> ∅)))) ])
    (Pods sm).

(** [func (k *Kubernetes) gatherPodInfo(baseURL string) ([]item, error)] *)
Definition gatherPodInfo (c : Cluster) (baseURL : string) : Err + list item :=
  loadPods c (baseURL +:+ "/pods").

(** [func (k *Kubernetes) gatherSummary(baseURL, acc) error]: the calls it
    makes on the accumulator, in order, and the error it returns. *)
Definition gatherSummary (k : Kubernetes) (c : Cluster) (baseURL : string)
    : list AccCall * option Err :=
  match loadSummary c (baseURL +:+ "/stats/summary") with
  | inl err => ([], Some err)
  | inr sm =>
      match gatherPodInfo c baseURL with
      | inl err => ([], Some err)
      | inr podInfos =>
          (buildSystemContainerMetrics sm
             ++ buildNodeMetrics sm (NodeMetricName k)
             ++ buildPodMetrics sm podInfos (labelFilter k),
           None)
      end
  end.

(** The body of one goroutine of [Gather]:
    [acc.AddError(k.gatherSummary(url, acc))], as the calls it makes on the
    shared accumulator. *)
Definition task (k : Kubernetes) (c : Cluster) (url : string) : list AccCall :=
  let '(calls, err) := gatherSummary k c url in
  calls ++ [AddError err].

(** *** The goroutines of one [Gather] call *)

(** Where the calling goroutine stands: in the loop that starts one
    goroutine per URL, in [wg.Wait()], or returned. *)
Inductive Main :=
| Spawning (urls : list string)
| Waiting
| Returned (err : option Err).

(** A started goroutine has calls left to make ([Some]), its [wg.Done()]
    being due when none is left, or has finished ([None]). *)
Record State := {
  main : Main;
  goroutines : list (option (list AccCall));
  wg : nat;
  acc : Accumulator;
}.

Section Gather.
Variable k : Kubernetes.
Variable c : Cluster.

(** One atomic step of some goroutine. *)
Inductive step : State -> State -> Prop :=
| step_go url urls gs n a :
    (* wg.Add(1); go func(url string) {...}(url) *)
    step {| main := Spawning (url :: urls); goroutines := gs; wg := n; acc := a |}
         {| main := Spawning urls; goroutines := gs ++ [Some (task k c url)];
            wg := S n; acc := a |}
| step_loop_end gs n a :
    step {| main := Spawning []; goroutines := gs; wg := n; acc := a |}
         {| main := Waiting; goroutines := gs; wg := n; acc := a |}
| step_call m gs i call rest n a :
    (* goroutine i makes its next call on the accumulator *)
    gs !! i = Some (Some (call :: rest)) ->
    step {| main := m; goroutines := gs; wg := n; acc := a |}
         {| main := m; goroutines := <[i := Some rest]> gs; wg := n;
            acc := a ++ [call] |}
| step_done m gs i n a :
    (* defer wg.Done() *)
    gs !! i = Some (Some []) ->
    step {| main := m; goroutines := gs; wg := S n; acc := a |}
         {| main := m; goroutines := <[i := None]> gs; wg := n; acc := a |}
| step_wait gs a :
    (* wg.Wait() returns once the counter is zero; return nil *)
    step {| main := Waiting; goroutines := gs; wg := 0; acc := a |}
         {| main := Returned None; goroutines := gs; wg := 0; acc := a |}.

(** The URLs the loop has not reached yet. *)
Definition unspawned (m : Main) : list string :=
  match m with
  | Spawning urls => urls
  | _ => []
  end.

(** The calls the started goroutines have still to make. *)
Definition pending (gs : list (option (list AccCall))) : list AccCall :=
  concat (map (default []) gs).

(** The number of started goroutines that have not finished. *)
Definition active (gs : list (option (list AccCall))) : nat :=
  sum_list_with (fun g => match g with Some _ => 1 | None => 0 end)%nat gs.

(** The number of steps a state has left, whatever the schedule. *)
Definition steps_left (s : State) : nat :=
  (match main s with
   | Spawning urls =>
       2 + sum_list_with (fun url => 2 + length (task k c url)) urls
   | Waiting => 1
   | Returned _ => 0
   end
   + sum_list_with (fun g => match g with
                             | Some calls => 1 + length calls
                             | None => 0
                             end) (goroutines s))%nat.

(** The state in which the fan-out loop is entered. *)
Definition fan_out (urls : list string) (a : Accumulator) : State :=
  {| main := Spawning urls; goroutines := []; wg := 0; acc := a |}.

(** What holds of every state of a fan-out over [urls]. *)
Record Inv (urls : list string) (a0 : Accumulator) (s : State) : Prop := {
  inv_calls :
    acc s ++ pending (goroutines s) ++ concat (map (task k c) (unspawned (main s)))
    ≡ₚ a0 ++ concat (map (task k c) urls);
  inv_wg : wg s = active (goroutines s);
  inv_count :
  (length (goroutines s) + length (unspawned (main s)) = length urls)%nat;
  inv_main :
    match main s with
    | Spawning _ => True
    | Waiting => True
    | Returned err => err = None /\ wg s = 0%nat
    end;
}.

(** [func (k *Kubernetes) Gather(acc telegraf.Accumulator) error]:
    [Gather a err a'] when a call with the accumulator at [a] can return
    [err] and leave the accumulator at [a']. *)
Inductive Gather (a : Accumulator) : option Err -> Accumulator -> Prop :=
| Gather_URL :
    URL k <> "" ->
    Gather a None (a ++ task k c (URL k))
| Gather_discovery_failed err :
    URL k = "" ->
    getNodeURLs c = inl err ->
    Gather a (Some err) a
| Gather_fan_out nodeBaseURLs s err :
    URL k = "" ->
    getNodeURLs c = inr nodeBaseURLs ->
    rtc step (fan_out nodeBaseURLs a) s ->
    main s = Returned err ->
    Gather a err (acc s).

End Gather.

End kubernetes.

(** ** Concrete plugins and configurations, for evaluating the model *)

Module fixtures.

Import GoTime telegraf models window.

(** An algorithm that keeps the metrics it is given and emits them on
    Push. *)
#[export] Instance collect : telegraf.Aggregator (list Metric) := {|
  Aggregator_Add := fun m a => a ++ [m];
  Aggregator_Push := fun acc a => (a, acc ++ map AddMetric a);
  Aggregator_Reset := fun _ => [];
|}.

(** An algorithm whose Push fails: it reports an error and emits nothing. *)
Definition failing : telegraf.Aggregator (list Metric) := {|
  Aggregator_Add := fun m a => a ++ [m];
  Aggregator_Push := fun acc a => (a, acc ++ [AddError (Some "push failed"%string)]);
  Aggregator_Reset := fun _ => [];
|}.

(** A filter that selects everything and changes nothing. *)
Definition pass_all : Filter :=
  {| Select := fun _ => (true, None); Modify := fun m => m |}.

(** A filter whose [Select] fails on every metric. *)
Definition broken : Filter :=
  {| Select := fun _ => (false, Some "malformed pattern"%string);
     Modify := fun m => m |}.

Definition config (f : Filter) (period grace delay : Duration) : AggregatorConfig :=
  {| cfgName := "collect"; Source := ""; Alias := ""; ID := "0";
     DropOriginal := true;
     Period := period; Delay := delay; Grace := grace;
     LogLevel := "";
     NameOverride := ""; MeasurementPrefix := ""; MeasurementSuffix := "";
     Tags := []; cfgFilter := f |}.

Definition cpu (t : Time) : Object :=
  {| metric := {| Name := "cpu"; TagList := [];
                  FieldList := [("value"%string, VInt 5)];
                  MetricTime := t |};
     tracking := Some 1%positive |}.

(** An aggregator for [cfg] whose current window is [start, until], the
    single metric object [o] behind reference 1, tracked with one
    obligation outstanding. *)
Definition world (cfg : AggregatorConfig) (start until : Time) (o : Object)
    : World (list Metric) :=
  {| heap := {[ 1%positive := o ]};
     obligations := {[ 1%positive := 1%nat ]};
     ra := {| Aggregator := []; Config := cfg;
              periodStart := start; periodEnd := until;
              log := [];
              MetricsPushed := 0; MetricsFiltered := 0; MetricsDropped := 0;
              PushTime := 0; aggErrors := 0 |};
     trace := [] |}.

(** A cluster of two nodes: the kubelet of the first cannot be reached, the
    second reports one system container and no pod. *)
Definition plugin : kubernetes.Kubernetes :=
  {| kubernetes.URL := "";
     kubernetes.BearerToken := "/var/run/secrets/kubernetes.io/serviceaccount/token";
     kubernetes.NodeMetricName := "kubernetes_node";
     kubernetes.LabelInclude := [];
     kubernetes.LabelExclude := ["*"%string];
     kubernetes.labelFilter := fun _ => false |}.

Definition two_nodes : kubernetes.Cluster :=
  {| kubernetes.listNodes :=
       inr [ {| kubernetes.node_Name := "a";
                kubernetes.Status_Addresses :=
                  [ {| kubernetes.Type_ := kubernetes.NodeExternalIP;
                       kubernetes.Address := "192.0.2.1" |};
                    {| kubernetes.Type_ := kubernetes.NodeInternalIP;
                       kubernetes.Address := "10.0.0.1" |} ] |};
             {| kubernetes.node_Name := "b";
                kubernetes.Status_Addresses :=
                  [ {| kubernetes.Type_ := kubernetes.NodeExternalIP;
                       kubernetes.Address := "192.0.2.2" |} ] |} ];
     kubernetes.loadSummary := fun url =>
       if String.eqb url "https://10.0.0.1:10250/stats/summary"
       then inl "connection refused"%string
       else inr {| kubernetes.Node :=
                     {| kubernetes.NodeName := "b";
                        kubernetes.SystemContainers :=
                          [ {| kubernetes.container_Name := "kubelet" |} ] |};
                   kubernetes.Pods := [] |};
     kubernetes.loadPods := fun _ => inr [] |}.

End fixtures.

(** ** A run of flush ticks *)

Module ticks.

Import GoTime telegraf models.

Section Ticks.
Context {A : Type} `{!telegraf.Aggregator A}.

(** [Push] called once per tick, in order, on the same accumulator; a tick
    is the clock reading on entry and the time the algorithm's Push took. *)
Fixpoint Pushes (ticks : list (Time * Duration)) (acc : Accumulator)
    : M A Accumulator :=
  match ticks with
  | [] => mret acc
  | (now, elapsed) :: rest =>
      acc' ← Push now elapsed acc;
      Pushes rest acc'
  end.

End Ticks.

End ticks.

(** ** Package [kubernetes]: [Init] *)

Module kubernetes_init.

Import telegraf kubernetes.
Local Open Scope string_scope.

Definition defaultServiceAccountPath : string :=
  "/var/run/secrets/kubernetes.io/serviceaccount/token".

(** The plugin object as [Init] sees it: the config, and of the embedded
    [tls.ClientConfig] the one field [Init] writes. *)
Record Plugin := {
  config : Kubernetes;
  InsecureSkipVerify : bool;
}.

Section Init.

(** [filter.NewIncludeExcludeFilter(include, exclude)], of package [filter]:
    the compiled filter, by its [Match], or the error of compiling it. *)
Variable NewIncludeExcludeFilter : list string -> list string -> Err + (string -> bool).

(** [func (k *Kubernetes) Init() error]: the plugin as [Init] leaves it, and
    the error it returns. *)
Definition Init (p : Plugin) : Plugin * option Err :=
  let k := config p in
  (* If bearer_token is not provided, use the default service account. *)
  let BearerToken' :=
    if String.eqb (BearerToken k) "" then defaultServiceAccountPath
    else BearerToken k in
  match NewIncludeExcludeFilter (LabelInclude k) (LabelExclude k) with
  | inl err =>
      ({| config := {| URL := URL k; BearerToken := BearerToken';
                       NodeMetricName := NodeMetricName k;
                       LabelInclude := LabelInclude k;
                       LabelExclude := LabelExclude k;
                       labelFilter := labelFilter k |};
          InsecureSkipVerify := InsecureSkipVerify p |},
       Some err)
  | inr labelFilter' =>
      ({| config := {| URL := URL k; BearerToken := BearerToken';
                       NodeMetricName :=
                         if String.eqb (NodeMetricName k) "" then "kubernetes_node"
                         else NodeMetricName k;
                       LabelInclude := LabelInclude k;
                       LabelExclude := LabelExclude k;
                       labelFilter := labelFilter' |};
          InsecureSkipVerify :=
            if String.eqb (URL k) "" then true else InsecureSkipVerify p |},
       None)
  end.

End Init.

End kubernetes_init.

(** ** Package [internet_speed] *)

Module internet_speed.

Import GoTime telegraf.
Local Open Scope string_scope.
Local Open Scope list_scope.
Local Open Scope stdpp_scope.

Definition measurement : string := "internet_speed".
Definition testModeSingle : string := "single".
Definition testModeMulti : string := "multi".

(** Of a [speedtest.Server], what the plugin reads other than the measured
    speeds and jitter, which are floating-point readings. *)
Record Server := {
  ID : string;
  Name : string;
  Host : string;
  Latency : Duration;
}.

(** [type InternetSpeed struct]; [server] and [serverFilter] are nil until
    set. *)
Record InternetSpeed := {
  ServerIDInclude : list string;
  ServerIDExclude : list string;
  MemorySavingMode : bool;
  Cache : bool;
  Connections : Z;
  TestMode : string;
  server : option Server;
  servers : list Server;
  serverFilter : option (string -> bool);
}.

(** How the speedtest client is set up by [findClosestServer]. *)
Inductive Proto := HTTP | ICMP.
Record Client := {
  PingMode : Proto;
  SavingMode : bool;
  NThread : option Z;
}.

(** What the operating system and the speedtest servers answer during one
    [Gather]. *)
Record Network := {
  Getegid : Z;
  FetchServers : Client -> list Server * option Err;
  PingTest : Server -> option Err;
  DownloadTest : Server -> option Err;
  UploadTest : Server -> option Err;
  MultiDownloadTest : Server -> list Server -> option Err;
  MultiUploadTest : Server -> list Server -> option Err;
  (** the error of [analyzer.Run(host, ...)] and of [analyzer.RunMulti(hosts)] *)
  PacketLoss : string -> option Err;
  PacketLossMulti : list string -> option Err;
}.

Inductive LogEntry :=
| DbgUsingServer (id name host : string)
| WarnPacketLoss (err : Err).

(** How a method ends: it returns, leaving the plugin, the log and the
    accumulator in some state, with an error or nil; or it panics on a nil
    dereference or an index out of range. *)
Inductive Outcome :=
| Ret (plugin : InternetSpeed) (log : list LogEntry) (acc : Accumulator)
      (err : option Err)
| Panic.

Section Init.

(** [filter.NewIncludeExcludeFilterDefaults(include, exclude, false, false)] *)
Variable NewIncludeExcludeFilterDefaults :
  list string -> list string -> Err + (string -> bool).

(** [strconv.Quote], which formats the [%q] verb. *)
Variable Quote : string -> string.

(** [func (is *InternetSpeed) Init() error] *)
Definition Init (is_ : InternetSpeed) : InternetSpeed * option Err :=
  let checked : string + Err :=
    if String.eqb (TestMode is_) testModeSingle
       || String.eqb (TestMode is_) testModeMulti then inl (TestMode is_)
    else if String.eqb (TestMode is_) "" then inl testModeSingle
    else inr ("unrecognized test mode: " +:+ Quote (TestMode is_)) in
  match checked with
  | inr err => (is_, Some err)
  | inl mode =>
      let is_' filter :=
        {| ServerIDInclude := ServerIDInclude is_;
           ServerIDExclude := ServerIDExclude is_;
           MemorySavingMode := MemorySavingMode is_;
           Cache := Cache is_;
           Connections := Connections is_;
           TestMode := mode;
           server := server is_;
           servers := servers is_;
           serverFilter := filter |} in
      match NewIncludeExcludeFilterDefaults (ServerIDInclude is_) (ServerIDExclude is_) with
      | inl err => (is_' None, Some ("error compiling server ID filters: " +:+ err))
      | inr f => (is_' (Some f), None)
      end
  end.

End Init.

(** [d.Milliseconds()]: an int64 division, which truncates toward zero. *)
Definition Milliseconds (d : Duration) : Z := Z.quot d 1000000.

Definition MaxInt64 : Z := 2 ^ 63 - 1.

(** The loop of [findClosestServer]: return the first match or the server
    with the lowest latency when filter mismatch all servers.  The result is
    [selectIndex]; [None] when [Match] is called on a nil filter. *)
Fixpoint selectLoop (serverFilter : option (string -> bool)) (rest : list Server)
    (index minLatency selectIndex : Z) : option Z :=
  match rest with
  | [] => Some selectIndex
  | server :: rest =>
      match serverFilter with
      | None => None
      | Some Match =>
          if Match (ID server) then Some index
          else if (0 <? Latency server)%Z
                  && (Milliseconds (Latency server) <? minLatency)%Z
          then selectLoop serverFilter rest (index + 1)
                          (Milliseconds (Latency server)) index
          else selectLoop serverFilter rest (index + 1) minLatency selectIndex
      end
  end.

Definition withServers (is_ : InternetSpeed) (l : list Server) : InternetSpeed :=
  {| ServerIDInclude := ServerIDInclude is_;
     ServerIDExclude := ServerIDExclude is_;
     MemorySavingMode := MemorySavingMode is_;
     Cache := Cache is_;
     Connections := Connections is_;
     TestMode := TestMode is_;
     server := server is_;
     servers := l;
     serverFilter := serverFilter is_ |}.

Definition withServer (is_ : InternetSpeed) (s : Server) : InternetSpeed :=
  {| ServerIDInclude := ServerIDInclude is_;
     ServerIDExclude := ServerIDExclude is_;
     MemorySavingMode := MemorySavingMode is_;
     Cache := Cache is_;
     Connections := Connections is_;
     TestMode := TestMode is_;
     server := Some s;
     servers := servers is_;
     serverFilter := serverFilter is_ |}.

(** The client [findClosestServer] sets up: ICMP pings for a process whose
    effective group id is not positive, HTTP otherwise; the configured number
    of connections when it is positive. *)
Definition newClient (net : Network) (is_ : InternetSpeed) : Client :=
  let proto := if (Getegid net <=? 0)%Z then ICMP else HTTP in
  {| PingMode := proto; SavingMode := MemorySavingMode is_;
     NThread := if (0 <? Connections is_)%Z then Some (Connections is_) else None |}.

(** [func (is *InternetSpeed) findClosestServer() error] *)
Definition findClosestServer (net : Network) (is_ : InternetSpeed)
    (log : list LogEntry) (acc : Accumulator) : Outcome :=
  let client := newClient net is_ in
  let '(fetched, err) := FetchServers net client in
  let is_ := withServers is_ fetched in
  match err with
  | Some err => Ret is_ log acc (Some ("fetching server list failed: " +:+ err))
  | None =>
      if (Z.of_nat (length (servers is_)) <? 1)%Z then
        Ret is_ log acc (Some "no servers found")
      else
        match selectLoop (serverFilter is_) (servers is_) 0 MaxInt64 (-1) with
        | None => Panic
        | Some selectIndex =>
            if negb (selectIndex =? -1)%Z then
              match servers is_ !! Z.to_nat selectIndex with
              | Some s =>
                  Ret (withServer is_ s)
                      (log ++ [DbgUsingServer (ID s) (Name s) (Host s)]) acc None
              | None => Panic
              end
            else
              Ret is_ log acc
                  (Some "no server set: filter excluded all servers or no available server found")
        end
  end.

(** The point [Gather] adds on success. *)
Definition report (is_ : InternetSpeed) (s : Server) : AccCall :=
  AddFields measurement
    ["download"; "upload"; "latency"; "jitter"; "packet_loss"; "location"]
    (<["server_id" := ID s]> (<["source" := Host s]>
       (<["test_mode" := TestMode is_]> ∅))).

(** [func (is *InternetSpeed) Gather(acc telegraf.Accumulator) error] *)
Definition Gather (net : Network) (is_ : InternetSpeed) (log : list LogEntry)
    (acc : Accumulator) : Outcome :=
  let tests (is_ : InternetSpeed) (log : list LogEntry) : Outcome :=
    match server is_ with
    | None => Panic
    | Some srv =>
        match PingTest net srv with
        | Some err => Ret is_ log acc (Some ("ping test failed: " +:+ err))
        | None =>
            if String.eqb (TestMode is_) testModeMulti then
              match MultiDownloadTest net srv (servers is_) with
              | Some err => Ret is_ log acc (Some ("download test failed: " +:+ err))
              | None =>
                  match MultiUploadTest net srv (servers is_) with
                  | Some err => Ret is_ log acc (Some ("upload test failed: " +:+ err))
                  | None =>
                      (* Not all servers are applicable for packet loss
                         testing: skip it and just report a warning. *)
                      let log :=
                        match PacketLossMulti net (map Host (servers is_)) with
                        | Some err => log ++ [WarnPacketLoss err]
                        | None => log
                        end in
                      Ret is_ log (acc ++ [report is_ srv]) None
                  end
              end
            else
              match DownloadTest net srv with
              | Some err => Ret is_ log acc (Some ("download test failed: " +:+ err))
              | None =>
                  match UploadTest net srv with
                  | Some err => Ret is_ log acc (Some ("upload test failed: " +:+ err))
                  | None =>
                      let log :=
                        match PacketLoss net (Host srv) with
                        | Some err => log ++ [WarnPacketLoss err]
                        | None => log
                        end in
                      Ret is_ log (acc ++ [report is_ srv]) None
                  end
              end
        end
    end in
  (* If not caching, go find the closest server each time. *)
  if negb (Cache is_) || (match server is_ with Some _ => false | None => true end) then
    match findClosestServer net is_ log acc with
    | Panic => Panic
    | Ret is_ log acc (Some err) =>
        Ret is_ log acc (Some ("unable to find closest server: " +:+ err))
    | Ret is_ log _ None => tests is_ log
    end
  else tests is_ log.

End internet_speed.

(** ** Further concrete inputs *)

Module more_fixtures.

Import telegraf.
Local Open Scope string_scope.

(** A node with one pod, [web] in namespace [default], running one
    container. *)
Definition one_pod : kubernetes.summaryMetrics :=
  {| kubernetes.Node :=
       {| kubernetes.NodeName := "node-1"; kubernetes.SystemContainers := [] |};
     kubernetes.Pods :=
       [ {| kubernetes.PodRef :=
              {| kubernetes.PodRef_Name := "web";
                 kubernetes.PodRef_Namespace := "default" |};
            kubernetes.Containers := [ {| kubernetes.container_Name := "nginx" |} ];
            kubernetes.Volumes := [] |} ] |}.

(** The pod list: that pod, labelled, with the image of its container. *)
Definition web_info (image : string) : list kubernetes.item :=
  [ {| kubernetes.Metadata_Name := "web";
       kubernetes.Metadata_Namespace := "default";
       kubernetes.Metadata_Labels :=
         <["app" := "shop"]> (<["tier" := "front"]> ∅);
       kubernetes.Spec_Containers :=
         [ {| kubernetes.spec_Name := "nginx"; kubernetes.Image := image |} ] |} ].

(** A label filter that accepts the label [app] only. *)
Definition only_app (key : string) : bool := String.eqb key "app".

(** A plugin with the URL of one kubelet configured. *)
Definition one_kubelet : kubernetes.Kubernetes :=
  {| kubernetes.URL := "https://10.0.0.1:10250";
     kubernetes.BearerToken := "/var/run/secrets/kubernetes.io/serviceaccount/token";
     kubernetes.NodeMetricName := "kubernetes_node";
     kubernetes.LabelInclude := [];
     kubernetes.LabelExclude := ["*"];
     kubernetes.labelFilter := fun _ => false |}.

(** Three speedtest servers: a slow one, a fast one, and one whose latency
    is not known. *)
Definition slow : internet_speed.Server :=
  {| internet_speed.ID := "1"; internet_speed.Name := "Oslo";
     internet_speed.Host := "oslo.example:8080";
     internet_speed.Latency := 40000000 |}.
Definition fast : internet_speed.Server :=
  {| internet_speed.ID := "2"; internet_speed.Name := "Bergen";
     internet_speed.Host := "bergen.example:8080";
     internet_speed.Latency := 9000000 |}.
Definition unknown : internet_speed.Server :=
  {| internet_speed.ID := "3"; internet_speed.Name := "Tromso";
     internet_speed.Host := "tromso.example:8080";
     internet_speed.Latency := 0 |}.

(** A network in which every test succeeds except the packet loss test. *)
Definition lossy : internet_speed.Network :=
  {| internet_speed.Getegid := 1000;
     internet_speed.FetchServers := fun _ => ([slow; fast; unknown], None);
     internet_speed.PingTest := fun _ => None;
     internet_speed.DownloadTest := fun _ => None;
     internet_speed.UploadTest := fun _ => None;
     internet_speed.MultiDownloadTest := fun _ _ => None;
     internet_speed.MultiUploadTest := fun _ _ => None;
     internet_speed.PacketLoss := fun _ => Some "not supported";
     internet_speed.PacketLossMulti := fun _ => Some "not supported" |}.

(** The plugin after [Init], in single mode, with the given filter, cache
    setting and server. *)
Definition speed (Match : string -> bool) (cache : bool)
    (srv : option internet_speed.Server) : internet_speed.InternetSpeed :=
  {| internet_speed.ServerIDInclude := [];
     internet_speed.ServerIDExclude := [];
     internet_speed.MemorySavingMode := false;
     internet_speed.Cache := cache;
     internet_speed.Connections := 0;
     internet_speed.TestMode := "single";
     internet_speed.server := srv;
     internet_speed.servers := [];
     internet_speed.serverFilter := Some Match |}.

End more_fixtures.

(** ** Vocabulary for the statements about the inputs *)

Module kubernetes_terms.

Import telegraf kubernetes.
Local Open Scope string_scope.
Local Open Scope list_scope.
Local Open Scope stdpp_scope.
Local Open Scope nat_scope.

(** An address that is not an internal IP. *)
Definition notInternal (a : NodeAddress) : Prop := Type_ a <> NodeInternalIP.

(** The kubelet URL built for a node address. *)
Definition nodeURL (address : string) : string :=
  "https://" +:+ address +:+ ":10250".

(** A call that adds a point. *)
Definition isAddFields (call : AccCall) : Prop :=
  match call with AddFields _ _ _ => True | _ => False end.

(** The number of times a character occurs in a string. *)
Fixpoint count_char (sep : Ascii.ascii) (s : string) : nat :=
  match s with
  | EmptyString => 0
  | String c rest => (if Ascii.eqb c sep then 1 else 0) + count_char sep rest
  end.

(** The label and image tables [buildPodMetrics] draws up for a pod. *)
Definition podTables (labelMatch : string -> bool) (pod : podMetrics)
    (podInfo : list item) (init : gmap string string * gmap string string)
    : gmap string string * gmap string string :=
  foldl (fun '((podLabels, containerImages)
               : gmap string string * gmap string string) info =>
           if String.eqb (Metadata_Name info) (PodRef_Name (PodRef pod))
              && String.eqb (Metadata_Namespace info)
                            (PodRef_Namespace (PodRef pod))
           then
             (copyInto (filter (fun kv => labelMatch kv.1 = true)
                               (Metadata_Labels info)) podLabels,
              foldl (fun (images : gmap string string) v =>
                       <[spec_Name v := Image v]> images)
                    containerImages (Spec_Containers info))
           else (podLabels, containerImages))
        init podInfo.

(** The tags [buildPodMetrics] sets itself. *)
Definition builtinTags : list string :=
  ["node_name"; "namespace"; "container_name"; "pod_name"; "volume_name";
   "image"; "version"].

(** What holds of the tags of a point of pod [pod], given the tables. *)
Definition podTagsOk (sm : summaryMetrics) (labelMatch : string -> bool)
    (podInfo : list item) (tags : gmap string string) : Prop :=
  (forall key value : string,
      tags !! key = Some value ->
      key ∈ builtinTags
      \/ (labelMatch key = true
          /\ exists info, info ∈ podInfo /\ Metadata_Labels info !! key = Some value))
  /\ (labelMatch "node_name" = false ->
      tags !! "node_name" = Some (NodeName (Node sm)))
  /\ (labelMatch "image" = false -> labelMatch "version" = false ->
      match tags !! "image" with
      | None => tags !! "version" = None
      | Some image =>
          (count_char ":" image = 1 ->
           exists name version,
             image = name +:+ ":" +:+ version
             /\ tags !! "version" = Some version)
          /\ (count_char ":" image <> 1 -> tags !! "version" = None)
      end).

End kubernetes_terms.

Module internet_speed_terms.

Import GoTime telegraf internet_speed.
Local Open Scope string_scope.
Local Open Scope list_scope.
Local Open Scope stdpp_scope.

(** A server the filter does not match. *)
Definition unmatched (Match : string -> bool) (s : Server) : Prop :=
  Match (ID s) = false.

(** The network [net], with another group id and another answer to fetching
    the server list. *)
Definition withFetch (net : Network) (egid : Z)
    (fetch : Client -> list Server * option Err) : Network :=
  {| Getegid := egid; FetchServers := fetch;
     PingTest := PingTest net; DownloadTest := DownloadTest net;
     UploadTest := UploadTest net;
     MultiDownloadTest := MultiDownloadTest net;
     MultiUploadTest := MultiUploadTest net;
     PacketLoss := PacketLoss net; PacketLossMulti := PacketLossMulti net |}.

End internet_speed_terms.

(** ** [Push] around an algorithm that may panic *)

Module unwinding.

Import GoTime telegraf models.

(** How a call into the plugin ends: it returns, or it panics and the stack
    unwinds through the caller. *)
Inductive Ending := Returns | Panics.

(** [telegraf.Aggregator], as far as [RunningAggregator.Push] calls it, with
    a [Push] that may panic: the state and the accumulator the call leaves
    behind, and how it ends.  What a [Push] that returns has to report, it
    reports through the accumulator. *)
Class Algorithm (A : Type) := {
  Algorithm_Push : Accumulator -> A -> A * Accumulator * Ending;
  Algorithm_Reset : A -> A;
}.

(** An algorithm whose [Push] always returns. *)
Definition returning {A : Type} `{!telegraf.Aggregator A} : Algorithm A := {|
  Algorithm_Push := fun acc a => (Aggregator_Push acc a, Returns);
  Algorithm_Reset := Aggregator_Reset;
|}.

Section Methods.
Context {A : Type} `{!Algorithm A}.

(** [r.Aggregator.Push(acc)] and [r.Aggregator.Reset()] *)
Definition callPush (acc : Accumulator) : M A (Accumulator * Ending) :=
  r ← self;
  emit EvPush ;;
  let '(a, acc', e) := Algorithm_Push acc (Aggregator r) in
  setAggregator a ;;
  mret (acc', e).

Definition callReset : M A unit :=
  r ← self;
  emit EvReset ;;
  setAggregator (Algorithm_Reset (Aggregator r)).

(** [func (r *RunningAggregator) Push(acc telegraf.Accumulator)], answering
    the accumulator and how the call ends.  The one deferred call is
    [r.Unlock()] and nothing recovers: when the algorithm's Push panics, the
    statements after it are not run and the panic goes on to the caller of
    [Push], the aggregator being left as it is at that point. *)
Definition Push (now : Time) (elapsed : Duration) (acc : Accumulator)
    : M A (Accumulator * Ending) :=
  r ← self;
  let since := periodEnd r in
  let until := GoTime.Add (periodEnd r) (Period (Config r)) in
  let nowWall := Truncate now (-1) in
  let '(since, until) :=
    if Before nowWall (Truncate since (-1))
       || After nowWall (Truncate until (-1))
    then
      let since := Truncate nowWall (Period (Config r)) in
      (since, GoTime.Add since (Period (Config r)))
    else (since, until) in
  UpdateWindow since until ;;
  '(acc', e) ← callPush acc;
  match e with
  | Panics => mret (acc', Panics)
  | Returns =>
      PushTime_Incr (Nanoseconds elapsed) ;;
      callReset ;;
      mret (acc', Returns)
  end.

End Methods.

(** An algorithm that keeps the metrics it is given; its Push emits the
    first of them and then panics. *)
Definition panicking : Algorithm (list Metric) := {|
  Algorithm_Push := fun acc a => (a, acc ++ map AddMetric (take 1 a), Panics);
  Algorithm_Reset := fun _ => [];
|}.

End unwinding.

(** ** Facts about the time model *)

Module GoTime_facts.
Import GoTime.

Lemma Truncate_nonpositive (t : Time) (d : Duration) :
  d <= 0 -> Truncate t d = t.
Proof.
  intros Hd. unfold Truncate.
  destruct (Z.leb_spec d 0) as [_|Hlt]; [reflexivity | lia].
Qed.

Lemma Truncate_strip (t : Time) : Truncate t (-1) = t.
Proof. apply Truncate_nonpositive. lia. Qed.

(** For a positive duration, [Truncate] is the floor to a multiple of it. *)
Lemma Truncate_floor (t : Time) (d : Duration) :
  0 < d -> Truncate t d = d * (t / d).
Proof.
  intros Hd. unfold Truncate, Add.
  destruct (Z.leb_spec d 0) as [Hle|_]; [lia|].
  pose proof (Z.div_mod t d ltac:(lia)). lia.
Qed.

Lemma Truncate_bounds (t : Time) (d : Duration) :
  0 < d -> Truncate t d <= t < Truncate t d + d.
Proof.
  intros Hd. unfold Truncate, Add.
  destruct (Z.leb_spec d 0) as [Hle|_]; [lia|].
  pose proof (Z.mod_pos_bound t d Hd). lia.
Qed.

Lemma wrap64_small (z : Z) : min_int64 <= z <= max_int64 -> wrap64 z = z.
Proof.
  unfold min_int64, max_int64, wrap64. intros Hz.
  rewrite Z.mod_small; lia.
Qed.

Lemma neg64_exact (d : Duration) :
  min_int64 < d <= max_int64 -> neg64 d = - d.
Proof.
  unfold neg64. intros Hd. apply wrap64_small.
  unfold min_int64, max_int64 in *. lia.
Qed.

(** The one int64 whose negation wraps. *)
Lemma neg64_min : neg64 min_int64 = min_int64.
Proof. reflexivity. Qed.

End GoTime_facts.

Module Add_facts.
Import GoTime telegraf models window GoTime_facts.

Section S.
Context {A : Type} `{!telegraf.Aggregator A}.

Ltac run :=
  unfold Add, Push, UpdateWindow, callAdd, callPush, callReset, logf,
    MetricsFiltered_Incr, MetricsDropped_Incr, PushTime_Incr, setAggregator,
    FromMetric, mutate, deref, self, update, emit,
    mbind, mret, M_bind, M_ret, bind, ret; simpl.

Lemma Add_run (w : World A) (m : loc) (orig : Object) :
  heap w !! m = Some orig ->
  exists w',
    Add m w =
    Some (drop_decision (Config (ra w))
            (outcome (Config (ra w)) (periodStart (ra w)) (periodEnd (ra w)) orig),
          w')
    /\ Add_post w orig w'.
Proof.
  intros Hm. destruct w as [h ob r tr]; simpl in *.
  destruct (Select (cfgFilter (Config r)) (metric orig)) as [ok err] eqn:Hs.
  destruct (length (FieldList (Modify (cfgFilter (Config r)) (metric orig))) =? 0)%nat
    eqn:Hlen;
  destruct (Before (MetricTime (Modify (cfgFilter (Config r)) (metric orig)))
              (GoTime.Add (periodStart r) (neg64 (Grace (Config r))))
            || After (MetricTime (Modify (cfgFilter (Config r)) (metric orig)))
                 (GoTime.Add (periodEnd r) (Delay (Config r)))) eqn:Hwin;
  destruct err as [e|]; destruct ok;
  unfold outcome, passes, select_error, prepared, untracked; run;
  rewrite ?Hm, ?Hs; simpl;
  repeat (first [rewrite Hm | rewrite lookup_insert_eq
                | rewrite insert_insert_eq | rewrite Hlen | rewrite Hwin]; simpl);
  (eexists; split; [reflexivity|]; split; simpl;
   unfold outcome, passes, select_error, prepared; simpl;
   rewrite ?Hs; simpl; rewrite ?Hlen; simpl; rewrite ?Hwin; simpl;
   rewrite ?app_nil_r, <- ?app_assoc; reflexivity).
Qed.

(** The window [Push] moves to, given the end of the current one. *)
Lemma Push_run (w : World A) (now : Time) (elapsed : Duration) (acc : Accumulator) :
  exists w' since until,
    Push now elapsed acc w =
      Some (snd (Aggregator_Push acc (Aggregator (ra w))), w')
    /\ (since, until) =
         (if (now <? periodEnd (ra w))
             || (periodEnd (ra w) + Period (Config (ra w)) <? now)
          then (Truncate now (Period (Config (ra w))),
                Truncate now (Period (Config (ra w))) + Period (Config (ra w)))
          else (periodEnd (ra w), periodEnd (ra w) + Period (Config (ra w))))
    /\ periodStart (ra w') = since
    /\ periodEnd (ra w') = until
    /\ Config (ra w') = Config (ra w)
    /\ trace w' = trace w ++ [EvUpdateWindow since until; EvPush; EvReset]
    /\ Aggregator (ra w') =
         Aggregator_Reset (fst (Aggregator_Push acc (Aggregator (ra w))))
    /\ PushTime (ra w') = Incr (PushTime (ra w)) elapsed
    /\ heap w' = heap w
    /\ obligations w' = obligations w.
Proof.
  destruct w as [h ob r tr]; simpl.
  run. rewrite !Truncate_strip. unfold Before, After, GoTime.Add, Nanoseconds.
  destruct ((now <? periodEnd r) || (periodEnd r + Period (Config r) <? now)) eqn:Hj;
    simpl; destruct (Aggregator_Push acc (Aggregator r)) as [a acc'] eqn:Hp; simpl;
    do 3 eexists; (split; [reflexivity|]); simpl; rewrite <- ?app_assoc; simpl;
    repeat split; reflexivity.
Qed.

End S.
End Add_facts.

(** ** Window admission and the drop-original answer of [Add] *)

Module Add_claims.
Import GoTime telegraf models window GoTime_facts Add_facts.

(** The window test of [Add] is the complement of the closed range. *)
Lemma window_test (cfg : AggregatorConfig) (ps pe t : Time) :
  min_int64 < Grace cfg <= max_int64 ->
  Before t (GoTime.Add ps (neg64 (Grace cfg)))
    || After t (GoTime.Add pe (Delay cfg)) = false
  <-> admitted cfg ps pe t.
Proof.
  intros Hg. unfold Before, After, GoTime.Add, admitted.
  rewrite (neg64_exact _ Hg), orb_false_iff, !Z.ltb_ge. lia.
Qed.

Lemma outcome_cases (cfg : AggregatorConfig) (ps pe : Time) (o : Object) :
  min_int64 < Grace cfg <= max_int64 ->
  passes (cfgFilter cfg) (metric o) = true ->
  FieldList (metric (prepared (cfgFilter cfg) o)) <> [] ->
  (admitted cfg ps pe (MetricTime (metric (prepared (cfgFilter cfg) o)))
   /\ outcome cfg ps pe o = Accepted)
  \/ (~ admitted cfg ps pe (MetricTime (metric (prepared (cfgFilter cfg) o)))
      /\ outcome cfg ps pe o = OutOfWindow).
Proof.
  intros Hg Hp Hf. unfold outcome. rewrite Hp. simpl.
  destruct (FieldList _) as [|x l] eqn:Hl; [congruence|]. simpl.
  pose proof (window_test cfg ps pe
                (MetricTime (Modify (cfgFilter cfg) (metric o))) Hg) as Hw.
  simpl in *.
  destruct (_ || _).
  - right. split; [|reflexivity]. intros Ha. apply Hw in Ha. discriminate.
  - left. split; [|reflexivity]. apply Hw. reflexivity.
Qed.

Section S.
Context {A : Type} `{!telegraf.Aggregator A}.

(** C1: a metric that passes selection and keeps a field is forwarded to
    the algorithm's Add exactly when its timestamp lies in the closed
    range from periodStart - grace to periodEnd + delay, both ends
    included; outside that range it is rejected and counted as dropped. *)
Theorem C1_window_admission (w : World A) (m : loc) (orig : Object) :
  heap w !! m = Some orig ->
  passes (cfgFilter (Config (ra w))) (metric orig) = true ->
  FieldList (metric (prepared (cfgFilter (Config (ra w))) orig)) <> [] ->
  min_int64 < Grace (Config (ra w)) <= max_int64 ->
  exists b w',
    Add m w = Some (b, w')
    /\ (periodStart (ra w) - Grace (Config (ra w))
          <= MetricTime (metric (prepared (cfgFilter (Config (ra w))) orig))
          <= periodEnd (ra w) + Delay (Config (ra w))
        <-> trace w' =
            trace w ++ [EvAdd (fresh_loc (heap w))
                          (prepared (cfgFilter (Config (ra w))) orig)])
    /\ (periodStart (ra w) - Grace (Config (ra w))
          <= MetricTime (metric (prepared (cfgFilter (Config (ra w))) orig))
          <= periodEnd (ra w) + Delay (Config (ra w)) ->
        Aggregator (ra w') =
          Aggregator_Add (metric (prepared (cfgFilter (Config (ra w))) orig))
                         (Aggregator (ra w))
        /\ MetricsDropped (ra w') = MetricsDropped (ra w))
    /\ (~ periodStart (ra w) - Grace (Config (ra w))
          <= MetricTime (metric (prepared (cfgFilter (Config (ra w))) orig))
          <= periodEnd (ra w) + Delay (Config (ra w)) ->
        trace w' = trace w
        /\ Aggregator (ra w') = Aggregator (ra w)
        /\ MetricsDropped (ra w') = Incr (MetricsDropped (ra w)) 1).
Proof.
  intros Hm Hp Hf Hg.
  destruct (Add_run w m orig Hm) as (w' & Hadd & Hpost).
  exists (drop_decision (Config (ra w))
            (outcome (Config (ra w)) (periodStart (ra w)) (periodEnd (ra w)) orig)), w'.
  split; [exact Hadd|].
  pose proof (post_trace _ _ _ Hpost) as Htr.
  pose proof (post_Aggregator _ _ _ Hpost) as Hag.
  pose proof (post_MetricsDropped _ _ _ Hpost) as Hdr.
  fold (admitted (Config (ra w)) (periodStart (ra w)) (periodEnd (ra w))
          (MetricTime (metric (prepared (cfgFilter (Config (ra w))) orig)))).
  destruct (outcome_cases (Config (ra w)) (periodStart (ra w)) (periodEnd (ra w))
              orig Hg Hp Hf) as [[Hin Ho]|[Hout Ho]];
    rewrite Ho in Htr, Hag, Hdr.
  - split; [tauto|]. split; [auto|]. intros Hn. contradiction.
  - rewrite app_nil_r in Htr. split; [|split; [intros; contradiction | auto]].
    split; [intros; contradiction|].
    intros Heq. rewrite Htr in Heq.
    apply (f_equal (@length Event)) in Heq. rewrite length_app in Heq.
    simpl in Heq. lia.
Qed.

(** C2: in the three cases filtered to no fields, rejected by the window,
    and accepted, [Add] answers with the configured drop-original policy;
    the answer is a function of the configuration and the filter and
    window outcome alone, so it does not depend on anything else in the
    aggregator or around it. *)
Theorem C2_drop_original (w : World A) (m : loc) (orig : Object) :
  heap w !! m = Some orig ->
  exists b w',
    Add m w = Some (b, w')
    /\ b = drop_decision (Config (ra w))
             (outcome (Config (ra w)) (periodStart (ra w)) (periodEnd (ra w)) orig)
    /\ (outcome (Config (ra w)) (periodStart (ra w)) (periodEnd (ra w)) orig = Filtered ->
        b = DropOriginal (Config (ra w))
        /\ MetricsFiltered (ra w') = Incr (MetricsFiltered (ra w)) 1
        /\ trace w' = trace w)
    /\ (outcome (Config (ra w)) (periodStart (ra w)) (periodEnd (ra w)) orig = OutOfWindow ->
        b = DropOriginal (Config (ra w))
        /\ MetricsDropped (ra w') = Incr (MetricsDropped (ra w)) 1
        /\ trace w' = trace w)
    /\ (outcome (Config (ra w)) (periodStart (ra w)) (periodEnd (ra w)) orig = Accepted ->
        b = DropOriginal (Config (ra w))
        /\ trace w' =
           trace w ++ [EvAdd (fresh_loc (heap w))
                         (prepared (cfgFilter (Config (ra w))) orig)])
    /\ (forall (v : World A) (n : loc),
          heap v !! n = Some orig ->
          Config (ra v) = Config (ra w) ->
          periodStart (ra v) = periodStart (ra w) ->
          periodEnd (ra v) = periodEnd (ra w) ->
          exists v', Add n v = Some (b, v')).
Proof.
  intros Hm.
  destruct (Add_run w m orig Hm) as (w' & Hadd & Hpost).
  eexists _, w'. split; [exact Hadd|]. split; [reflexivity|].
  pose proof (post_trace _ _ _ Hpost) as Htr.
  pose proof (post_MetricsFiltered _ _ _ Hpost) as Hfi.
  pose proof (post_MetricsDropped _ _ _ Hpost) as Hdr.
  split; [|split; [|split]];
    try (intros Ho; rewrite Ho in *; simpl; rewrite ?app_nil_r in Htr;
         repeat split; first [reflexivity | assumption]).
  intros v n Hn Hc Hs He.
  destruct (Add_run v n orig Hn) as (v' & Hadd' & _).
  exists v'. rewrite Hadd', Hc, Hs, He. reflexivity.
Qed.

Lemma fresh_loc_free (h : gmap loc Object) : h !! fresh_loc h = None.
Proof. apply not_elem_of_dom. unfold fresh_loc. apply is_fresh. Qed.

(** C6, as amended: when Select fails, the error is logged and the point
    goes on as a selected one does: it is copied and modified, then
    counted as filtered when no field is left, counted as dropped when its
    timestamp is outside the window, and forwarded to the algorithm's Add
    otherwise; [Add] returns, and so does every later call. *)
Theorem C6_select_error_falls_through (w : World A) (m : loc) (orig : Object)
    (ok : bool) (e : Err) :
  heap w !! m = Some orig ->
  Select (cfgFilter (Config (ra w))) (metric orig) = (ok, Some e) ->
  min_int64 < Grace (Config (ra w)) <= max_int64 ->
  exists w',
    Add m w = Some (DropOriginal (Config (ra w)), w')
    /\ (exists rest, log (ra w') = log (ra w) ++ ErrFilteringFailed e :: rest)
    /\ (FieldList (metric (prepared (cfgFilter (Config (ra w))) orig)) = [] ->
        MetricsFiltered (ra w') = Incr (MetricsFiltered (ra w)) 1
        /\ MetricsDropped (ra w') = MetricsDropped (ra w)
        /\ trace w' = trace w)
    /\ (FieldList (metric (prepared (cfgFilter (Config (ra w))) orig)) <> [] ->
        periodStart (ra w) - Grace (Config (ra w))
          <= MetricTime (metric (prepared (cfgFilter (Config (ra w))) orig))
          <= periodEnd (ra w) + Delay (Config (ra w)) ->
        MetricsFiltered (ra w') = MetricsFiltered (ra w)
        /\ MetricsDropped (ra w') = MetricsDropped (ra w)
        /\ trace w' =
           trace w ++ [EvAdd (fresh_loc (heap w))
                         (prepared (cfgFilter (Config (ra w))) orig)])
    /\ (FieldList (metric (prepared (cfgFilter (Config (ra w))) orig)) <> [] ->
        ~ periodStart (ra w) - Grace (Config (ra w))
          <= MetricTime (metric (prepared (cfgFilter (Config (ra w))) orig))
          <= periodEnd (ra w) + Delay (Config (ra w)) ->
        MetricsFiltered (ra w') = MetricsFiltered (ra w)
        /\ MetricsDropped (ra w') = Incr (MetricsDropped (ra w)) 1
        /\ trace w' = trace w)
    /\ (forall (n : loc) (o : Object),
          heap w' !! n = Some o -> exists b w'', Add n w' = Some (b, w'')).
Proof.
  intros Hm Hs Hg.
  assert (Hp : passes (cfgFilter (Config (ra w))) (metric orig) = true)
    by (unfold passes; rewrite Hs; reflexivity).
  destruct (Add_run w m orig Hm) as (w' & Hadd & Hpost).
  pose proof (post_trace _ _ _ Hpost) as Htr.
  pose proof (post_MetricsFiltered _ _ _ Hpost) as Hfi.
  pose proof (post_MetricsDropped _ _ _ Hpost) as Hdr.
  pose proof (post_log _ _ _ Hpost) as Hlog.
  unfold select_error in Hlog. rewrite Hs in Hlog. simpl in Hlog.
  exists w'. split; [|split; [eexists; exact Hlog|]].
  { rewrite Hadd. f_equal. f_equal. unfold outcome. rewrite Hp. simpl.
    destruct (_ =? _)%nat; [reflexivity|]. destruct (_ || _); reflexivity. }
  split; [|split; [|split]].
  - intros Hf.
    assert (Ho : outcome (Config (ra w)) (periodStart (ra w)) (periodEnd (ra w)) orig
                 = Filtered).
    { unfold outcome. rewrite Hp. simpl. simpl in Hf. rewrite Hf. reflexivity. }
    rewrite Ho, ?app_nil_r in *. auto.
  - intros Hf Hin.
    destruct (outcome_cases (Config (ra w)) (periodStart (ra w)) (periodEnd (ra w))
                orig Hg Hp Hf) as [[_ Ho]|[Hout _]]; [|contradiction].
    rewrite Ho in *. auto.
  - intros Hf Hout.
    destruct (outcome_cases (Config (ra w)) (periodStart (ra w)) (periodEnd (ra w))
                orig Hg Hp Hf) as [[Hin _]|[_ Ho]]; [contradiction|].
    rewrite Ho, ?app_nil_r in *. auto.
  - intros n o Hn. destruct (Add_run w' n o Hn) as (w'' & Hadd' & _). eauto.
Qed.

(** C7: [Add] modifies only a copy.  Every metric object that existed
    before the call, the one passed in among them, is the same after it;
    what the algorithm receives is a new object that carries no tracking;
    and the delivery obligations of tracked metrics are as they were. *)
Theorem C7_original_untouched (w : World A) (m : loc) (orig : Object) :
  heap w !! m = Some orig ->
  exists b w' evs,
    Add m w = Some (b, w')
    /\ heap w' !! m = Some orig
    /\ (forall (p : loc) (o : Object),
          heap w !! p = Some o -> heap w' !! p = Some o)
    /\ obligations w' = obligations w
    /\ trace w' = trace w ++ evs
    /\ (forall (p : loc) (o : Object),
          In (EvAdd p o) evs ->
          p <> m
          /\ heap w !! p = None
          /\ heap w' !! p = Some o
          /\ tracking o = None
          /\ metric o = Modify (cfgFilter (Config (ra w))) (metric orig))
    /\ (forall (now : Time) (elapsed : Duration) (acc : Accumulator),
          exists acc' w'',
            Push now elapsed acc w' = Some (acc', w'')
            /\ heap w'' !! m = Some orig
            /\ obligations w'' = obligations w).
Proof.
  intros Hm.
  destruct (Add_run w m orig Hm) as (w' & Hadd & Hpost).
  pose proof (post_trace _ _ _ Hpost) as Htr.
  pose proof (post_heap _ _ _ Hpost) as Hh.
  pose proof (fresh_loc_free (heap w)) as Hfr.
  assert (Hkeep : forall (p : loc) (o : Object),
             heap w !! p = Some o -> heap w' !! p = Some o).
  { intros p o Hp. rewrite Hh.
    assert (fresh_loc (heap w) <> p) by congruence.
    destruct (outcome _ _ _ _); rewrite ?lookup_insert_ne; auto. }
  eexists _, w', _. split; [exact Hadd|].
  split; [auto|]. split; [exact Hkeep|].
  split; [exact (post_obligations _ _ _ Hpost)|].
  split; [exact Htr|]. split.
  - intros p o Hin.
    destruct (outcome _ _ _ _); simpl in Hin; try contradiction.
    destruct Hin as [Heq|[]]. inversion Heq; subst p o; clear Heq.
    split; [congruence|]. split; [exact Hfr|].
    split; [rewrite Hh; apply lookup_insert_eq|].
    split; reflexivity.
  - intros now elapsed acc.
    destruct (Push_run w' now elapsed acc)
      as (w'' & since & until & Hpush & _ & _ & _ & _ & _ & _ & _ & Hh' & Hob').
    eexists _, w''. split; [exact Hpush|].
    rewrite Hh', Hob'. split; [auto|exact (post_obligations _ _ _ Hpost)].
Qed.

End S.

Import fixtures.

(** A metric stamped exactly at periodEnd + delay is forwarded. *)
Lemma C1_window_admission_witness :
  (heap (world (config pass_all 10 2 3) 0 10 (cpu 13)) !! 1%positive = Some (cpu 13)
   /\ passes pass_all (metric (cpu 13)) = true
   /\ FieldList (metric (prepared pass_all (cpu 13))) <> []
   /\ min_int64 < 2 <= max_int64)
  /\ exists w',
       Add 1%positive (world (config pass_all 10 2 3) 0 10 (cpu 13)) = Some (true, w')
       /\ trace w' = [EvAdd 2%positive (untracked (cpu 13))].
Proof.
  split; [split; [reflexivity | split; [reflexivity | split;
    [discriminate | unfold min_int64, max_int64; lia]]]|].
  destruct (C1_window_admission (world (config pass_all 10 2 3) 0 10 (cpu 13))
              1%positive (cpu 13) eq_refl eq_refl
              ltac:(discriminate)
              ltac:(unfold min_int64, max_int64; simpl; lia))
    as (b & w' & Hadd & Hiff & _).
  exists w'. split.
  - rewrite Hadd. vm_compute in Hadd. congruence.
  - apply Hiff. simpl. lia.
Defined.

Lemma C2_drop_original_witness :
  heap (world (config pass_all 10 0 0) 0 10 (cpu 11)) !! 1%positive = Some (cpu 11)
  /\ exists w',
       Add 1%positive (world (config pass_all 10 0 0) 0 10 (cpu 11)) = Some (true, w')
       /\ MetricsDropped (ra w') = 1.
Proof.
  split; [reflexivity|].
  destruct (C2_drop_original (world (config pass_all 10 0 0) 0 10 (cpu 11))
              1%positive (cpu 11) eq_refl)
    as (b & w' & Hadd & Hb & _ & Hout & _).
  exists w'. split.
  - rewrite Hadd, Hb. reflexivity.
  - destruct (Hout eq_refl) as (_ & Hd & _). rewrite Hd. reflexivity.
Defined.

(** C6, as stated, fails: with a filter whose Select fails, a point stamped
    inside the window is forwarded to the algorithm, and a point stamped
    outside it is counted as dropped by the window. *)
Lemma C6_counterexample :
  Select broken (metric (cpu 5)) = (false, Some "malformed pattern"%string)
  /\ (exists w',
        Add 1%positive (world (config broken 10 0 0) 0 10 (cpu 5)) = Some (true, w')
        /\ trace w' = [EvAdd 2%positive (untracked (cpu 5))]
        /\ Aggregator (ra w') = [metric (cpu 5)]
        /\ MetricsFiltered (ra w') = 0)
  /\ (exists w',
        Add 1%positive (world (config broken 10 0 0) 0 10 (cpu 11)) = Some (true, w')
        /\ trace w' = []
        /\ MetricsDropped (ra w') = 1
        /\ MetricsFiltered (ra w') = 0).
Proof.
  split; [reflexivity|].
  split; eexists; (split; [vm_compute; reflexivity|]); repeat split; reflexivity.
Qed.

Lemma C6_select_error_falls_through_witness :
  (heap (world (config broken 10 0 0) 0 10 (cpu 5)) !! 1%positive = Some (cpu 5)
   /\ Select broken (metric (cpu 5)) = (false, Some "malformed pattern"%string)
   /\ min_int64 < 0 <= max_int64)
  /\ exists w',
       Add 1%positive (world (config broken 10 0 0) 0 10 (cpu 5)) = Some (true, w')
       /\ trace w' = [EvAdd 2%positive (untracked (cpu 5))].
Proof.
  split; [split; [reflexivity | split;
    [reflexivity | unfold min_int64, max_int64; lia]]|].
  destruct (C6_select_error_falls_through (world (config broken 10 0 0) 0 10 (cpu 5))
              1%positive (cpu 5) false "malformed pattern"%string eq_refl eq_refl
              ltac:(unfold min_int64, max_int64; simpl; lia))
    as (w' & Hadd & _ & _ & Hin & _).
  exists w'. split; [exact Hadd|].
  apply Hin; [discriminate | simpl; lia].
Defined.

Lemma C7_original_untouched_witness :
  heap (world (config pass_all 10 0 0) 0 10 (cpu 5)) !! 1%positive = Some (cpu 5)
  /\ exists b w',
       Add 1%positive (world (config pass_all 10 0 0) 0 10 (cpu 5)) = Some (b, w')
       /\ heap w' !! 1%positive = Some (cpu 5)
       /\ obligations w' = {[ 1%positive := 1%nat ]}.
Proof.
  split; [reflexivity|].
  destruct (C7_original_untouched (world (config pass_all 10 0 0) 0 10 (cpu 5))
              1%positive (cpu 5) eq_refl)
    as (b & w' & evs & Hadd & Hm & _ & Hob & _).
  exists b, w'. auto.
Defined.

End Add_claims.

(** ** The window update of [Push] *)

Module Push_claims.
Import GoTime telegraf models window GoTime_facts Add_facts.

Lemma count_updates_app (tr1 tr2 : list Event) :
  count_updates (tr1 ++ tr2) = (count_updates tr1 + count_updates tr2)%nat.
Proof. unfold count_updates. rewrite List.filter_app, length_app. reflexivity. Qed.

Lemma count_updates_Push (since until : Time) :
  count_updates [EvUpdateWindow since until; EvPush; EvReset] = 1%nat.
Proof. reflexivity. Qed.

Section S.
Context {A : Type} `{!telegraf.Aggregator A}.

Lemma Add_returns_inv (w : World A) (m : loc) (b : bool) (w' : World A) :
  Add m w = Some (b, w') -> exists orig, heap w !! m = Some orig.
Proof.
  unfold Add, mbind, M_bind, bind, self, deref.
  destruct (heap w !! m) as [orig|]; [eauto | discriminate].
Qed.

(** C3: when the wall clock is outside the next intended window, one call
    of [Push] moves the window straight to the period that contains the
    clock: it starts at the clock rounded down to a multiple of the
    period and ends one period later, with a single window update. *)
Theorem C3_clock_jump_reanchors (w : World A) (now : Time) (elapsed : Duration)
    (acc : Accumulator) :
  now < periodEnd (ra w) \/ periodEnd (ra w) + Period (Config (ra w)) < now ->
  exists acc' w',
    Push now elapsed acc w = Some (acc', w')
    /\ periodStart (ra w') = Truncate now (Period (Config (ra w)))
    /\ periodEnd (ra w') =
         Truncate now (Period (Config (ra w))) + Period (Config (ra w))
    /\ (0 < Period (Config (ra w)) ->
        periodStart (ra w') = Period (Config (ra w)) * (now / Period (Config (ra w)))
        /\ periodStart (ra w') <= now < periodEnd (ra w'))
    /\ count_updates (trace w') = S (count_updates (trace w)).
Proof.
  intros Hout.
  destruct (Push_run w now elapsed acc)
    as (w' & since & until & Hpush & Hwin & Hs & He & _ & Htr & _).
  assert (Hj : (now <? periodEnd (ra w))
               || (periodEnd (ra w) + Period (Config (ra w)) <? now) = true).
  { apply orb_true_iff. rewrite !Z.ltb_lt. exact Hout. }
  rewrite Hj in Hwin. injection Hwin as -> ->.
  eexists _, w'. split; [exact Hpush|]. split; [exact Hs|]. split; [exact He|].
  split.
  - intros Hp. rewrite Hs, He. split; [apply Truncate_floor; exact Hp|].
    apply Truncate_bounds; exact Hp.
  - rewrite Htr, count_updates_app, count_updates_Push. lia.
Qed.

(** C4, as amended: the clock test of [Push] compares the wall clock with
    the ends of the next intended window as they are, to the nanosecond;
    the window is re-anchored exactly when the clock is before periodEnd
    or after periodEnd + period, and advanced by one period otherwise. *)
Theorem C4_exact_clock_test (w : World A) (now : Time) (elapsed : Duration)
    (acc : Accumulator) :
  exists acc' w',
    Push now elapsed acc w = Some (acc', w')
    /\ (now < periodEnd (ra w) \/ periodEnd (ra w) + Period (Config (ra w)) < now ->
        periodStart (ra w') = Truncate now (Period (Config (ra w)))
        /\ periodEnd (ra w') =
             Truncate now (Period (Config (ra w))) + Period (Config (ra w)))
    /\ (periodEnd (ra w) <= now <= periodEnd (ra w) + Period (Config (ra w)) ->
        periodStart (ra w') = periodEnd (ra w)
        /\ periodEnd (ra w') = periodEnd (ra w) + Period (Config (ra w))).
Proof.
  destruct (Push_run w now elapsed acc)
    as (w' & since & until & Hpush & Hwin & Hs & He & _).
  eexists _, w'. split; [exact Hpush|]. split.
  - intros Hout.
    assert (Hj : (now <? periodEnd (ra w))
                 || (periodEnd (ra w) + Period (Config (ra w)) <? now) = true).
    { apply orb_true_iff. rewrite !Z.ltb_lt. exact Hout. }
    rewrite Hj in Hwin. injection Hwin as -> ->. auto.
  - intros Hin.
    assert (Hj : (now <? periodEnd (ra w))
                 || (periodEnd (ra w) + Period (Config (ra w)) <? now) = false).
    { apply orb_false_iff. rewrite !Z.ltb_ge. lia. }
    rewrite Hj in Hwin. injection Hwin as -> ->. auto.
Qed.

(** C8: the window of a started aggregator always ends one period after
    it starts.  It is created as [now, now + period]; [Add] never touches
    it; each [Push] updates it exactly once, and both branches of that
    update set the end to the start plus the period. *)
Theorem C8_window_invariant :
  (forall (h : gmap loc Object) (ob : gmap TrackingID nat) (aggregator : A)
          (config : AggregatorConfig) (levelErr : option Err) (now : Time),
      exists w,
        StartWindow now {| heap := h; obligations := ob;
                           ra := NewRunningAggregator aggregator config levelErr;
                           trace := [] |} = Some (tt, w)
        /\ periodStart (ra w) = now
        /\ periodEnd (ra w) = now + Period config
        /\ Config (ra w) = config)
  /\ (forall w : World A, reachable w -> window_ok (ra w))
  /\ (forall (w : World A) (m : loc) (b : bool) (w' : World A),
        Add m w = Some (b, w') ->
        periodStart (ra w') = periodStart (ra w)
        /\ periodEnd (ra w') = periodEnd (ra w)
        /\ Config (ra w') = Config (ra w)
        /\ count_updates (trace w') = count_updates (trace w))
  /\ (forall (w : World A) (now : Time) (elapsed : Duration) (acc acc' : Accumulator)
             (w' : World A),
        Push now elapsed acc w = Some (acc', w') ->
        periodEnd (ra w') = periodStart (ra w') + Period (Config (ra w'))
        /\ Config (ra w') = Config (ra w)
        /\ count_updates (trace w') = S (count_updates (trace w))).
Proof.
  assert (Hstart : forall h ob (aggregator : A) config levelErr now,
             exists w,
               StartWindow now {| heap := h; obligations := ob;
                                  ra := NewRunningAggregator aggregator config levelErr;
                                  trace := [] |} = Some (tt, w)
               /\ periodStart (ra w) = now
               /\ periodEnd (ra w) = now + Period config
               /\ Config (ra w) = config).
  { intros. eexists. split; [reflexivity|]. simpl. auto. }
  assert (HAdd : forall (w : World A) m b w',
             Add m w = Some (b, w') ->
             periodStart (ra w') = periodStart (ra w)
             /\ periodEnd (ra w') = periodEnd (ra w)
             /\ Config (ra w') = Config (ra w)
             /\ count_updates (trace w') = count_updates (trace w)).
  { intros w m b w' Hadd.
    destruct (Add_returns_inv _ _ _ _ Hadd) as [orig Hm].
    destruct (Add_run w m orig Hm) as (w1 & Hadd1 & Hpost).
    rewrite Hadd in Hadd1. inversion Hadd1; subst w1.
    split; [exact (post_periodStart _ _ _ Hpost)|].
    split; [exact (post_periodEnd _ _ _ Hpost)|].
    split; [exact (post_Config _ _ _ Hpost)|].
    rewrite (post_trace _ _ _ Hpost), count_updates_app.
    destruct (outcome _ _ _ _); unfold count_updates; simpl; lia. }
  assert (HPush : forall (w : World A) now elapsed acc acc' w',
             Push now elapsed acc w = Some (acc', w') ->
             periodEnd (ra w') = periodStart (ra w') + Period (Config (ra w'))
             /\ Config (ra w') = Config (ra w)
             /\ count_updates (trace w') = S (count_updates (trace w))).
  { intros w now elapsed acc acc' w' Hpush.
    destruct (Push_run w now elapsed acc)
      as (w1 & since & until & Hpush1 & Hwin & Hs & He & Hc & Htr & _).
    rewrite Hpush in Hpush1. inversion Hpush1; subst w1.
    rewrite Hs, He, Hc, Htr, count_updates_app, count_updates_Push.
    split; [|split; [reflexivity | lia]].
    destruct (_ || _); injection Hwin as -> ->; reflexivity. }
  split; [exact Hstart|]. split; [|split; [exact HAdd | exact HPush]].
  intros w Hr. unfold window_ok. induction Hr as
    [h ob aggregator config levelErr now w Hw
    | w h ob Hr IH
    | w m b w' Hr IH Hadd
    | w now elapsed acc acc' w' Hr IH Hpush].
  - destruct (Hstart h ob aggregator config levelErr now) as (w1 & Hw1 & Hs & He & Hc).
    rewrite Hw in Hw1. inversion Hw1; subst w1. rewrite Hs, He, Hc. reflexivity.
  - exact IH.
  - destruct (HAdd _ _ _ _ Hadd) as (Hs & He & Hc & _). rewrite Hs, He, Hc. exact IH.
  - destruct (HPush _ _ _ _ _ _ Hpush) as (Hinv & _). exact Hinv.
Qed.

End S.

(** With an algorithm whose Push always returns, [unwinding.Push] is
    [models.Push]. *)
Lemma Push_returning {A : Type} `{!telegraf.Aggregator A} (w : World A)
    (now : Time) (elapsed : Duration) (acc : Accumulator) :
  @unwinding.Push A unwinding.returning now elapsed acc w
  = match Push now elapsed acc w with
    | Some (acc', w') => Some ((acc', unwinding.Returns), w')
    | None => None
    end.
Proof.
  destruct w as [h ob r tr].
  unfold unwinding.Push, unwinding.callPush, unwinding.callReset, unwinding.returning,
    Push, callPush, callReset, UpdateWindow, logf, PushTime_Incr, setAggregator,
    self, update, emit, mbind, mret, M_bind, M_ret, bind, ret; simpl.
  destruct (_ || _); simpl;
    destruct (Aggregator_Push acc (Aggregator r)) as [a acc']; reflexivity.
Qed.

Section Unwinding.
Context {A : Type} `{!unwinding.Algorithm A}.

(** C5, as amended: every call of [Push] updates the window, to the period
    its clock test picks, before it calls the algorithm's Push.  When that
    Push returns, whatever it reported through the accumulator, Reset is
    called next and the algorithm is left in the state Reset gives.  When
    that Push panics, Reset is not called: the call ends with the window
    advanced and the algorithm in the state its Push left. *)
Theorem C5_reset_follows_returning_push (w : World A) (now : Time)
    (elapsed : Duration) (acc : Accumulator) :
  exists since until w',
    (now < periodEnd (ra w) \/ periodEnd (ra w) + Period (Config (ra w)) < now ->
     since = Truncate now (Period (Config (ra w)))
     /\ until = Truncate now (Period (Config (ra w))) + Period (Config (ra w)))
    /\ (periodEnd (ra w) <= now <= periodEnd (ra w) + Period (Config (ra w)) ->
        since = periodEnd (ra w)
        /\ until = periodEnd (ra w) + Period (Config (ra w)))
    /\ periodStart (ra w') = since
    /\ periodEnd (ra w') = until
    /\ match unwinding.Algorithm_Push acc (Aggregator (ra w)) with
       | (a, acc', unwinding.Returns) =>
           unwinding.Push now elapsed acc w = Some ((acc', unwinding.Returns), w')
           /\ trace w' = trace w ++ [EvUpdateWindow since until; EvPush; EvReset]
           /\ Aggregator (ra w') = unwinding.Algorithm_Reset a
       | (a, acc', unwinding.Panics) =>
           unwinding.Push now elapsed acc w = Some ((acc', unwinding.Panics), w')
           /\ trace w' = trace w ++ [EvUpdateWindow since until; EvPush]
           /\ Aggregator (ra w') = a
       end.
Proof.
  destruct w as [h ob r tr].
  unfold unwinding.Push, unwinding.callPush, unwinding.callReset,
    UpdateWindow, logf, PushTime_Incr, setAggregator,
    self, update, emit, mbind, mret, M_bind, M_ret, bind, ret; simpl.
  rewrite !Truncate_strip. unfold Before, After, GoTime.Add, Nanoseconds.
  destruct ((now <? periodEnd r) || (periodEnd r + Period (Config r) <? now)) eqn:Hj;
    simpl;
    destruct (unwinding.Algorithm_Push acc (Aggregator r)) as [[a acc'] []] eqn:Hp;
    simpl;
    do 3 eexists;
    (split; [|split; [|split; [|split; [|split; [reflexivity|split]]]]]);
    simpl; rewrite <- ?app_assoc; simpl; try reflexivity.
  all: try (apply orb_true_iff in Hj; rewrite !Z.ltb_lt in Hj).
  all: try (apply orb_false_iff in Hj; rewrite !Z.ltb_ge in Hj).
  all: intros; first [split; reflexivity | lia].
Qed.

End Unwinding.

Import fixtures.

(** The clock jumps from periodEnd = 100 s to now = 500 s with a period of
    10 s: the next window is [500 s, 510 s], reached by one update. *)
Lemma C3_clock_jump_reanchors_witness :
  (500 * Second < 100 * Second \/ 100 * Second + 10 * Second < 500 * Second)
  /\ exists acc' w',
       Push (500 * Second) 0 []
         (world (config pass_all (10 * Second) 0 0) (90 * Second) (100 * Second) (cpu 0))
       = Some (acc', w')
       /\ periodStart (ra w') = 500 * Second
       /\ periodEnd (ra w') = 510 * Second
       /\ count_updates (trace w') = 1%nat.
Proof.
  split; [right; unfold Second; lia|].
  destruct (C3_clock_jump_reanchors
              (world (config pass_all (10 * Second) 0 0) (90 * Second) (100 * Second) (cpu 0))
              (500 * Second) 0 [] ltac:(right; unfold Second; simpl; lia))
    as (acc' & w' & Hpush & Hs & He & _ & Hn).
  exists acc', w'. split; [exact Hpush|].
  split; [rewrite Hs; reflexivity|]. split; [rewrite He; reflexivity|]. exact Hn.
Defined.

(** C4, as stated, fails: with periodEnd = 100.5 s, period = 10 s and the
    clock at 100.4 s, the clock cut to whole seconds lies inside the
    interval cut to whole seconds, and [Push] re-anchors the window all
    the same, to [100 s, 110 s] instead of [100.5 s, 110.5 s]. *)
Lemma C4_counterexample :
  outside_whole_seconds 100500000000 (10 * Second) 100400000000 = false
  /\ exists acc' w',
       Push 100400000000 0 []
         (world (config pass_all (10 * Second) 0 0) 90500000000 100500000000 (cpu 0))
       = Some (acc', w')
       /\ periodStart (ra w') = 100 * Second
       /\ periodEnd (ra w') = 110 * Second
       /\ periodStart (ra w') <> 100500000000.
Proof.
  split; [reflexivity|].
  eexists _, _. split; [vm_compute; reflexivity|].
  repeat split. discriminate.
Qed.

(** C5, as stated, fails: holding two metrics, with the window [0, 10] and
    pushed at 10, an algorithm whose Push emits the first metric and then
    panics is not reset.  The call ends in the panic after the window
    update and the Push; the window is [10, 20] and both metrics are still
    held. *)
Lemma C5_counterexample :
  exists w',
    @unwinding.Push _ unwinding.panicking 10 0 []
      {| heap := ∅; obligations := ∅;
         ra := {| Aggregator := [metric (cpu 1); metric (cpu 2)];
                  Config := config pass_all 10 0 0;
                  periodStart := 0; periodEnd := 10; log := [];
                  MetricsPushed := 0; MetricsFiltered := 0; MetricsDropped := 0;
                  PushTime := 0; aggErrors := 0 |};
         trace := [] |}
    = Some (([AddMetric (metric (cpu 1))], unwinding.Panics), w')
    /\ trace w' = [EvUpdateWindow 10 20; EvPush]
    /\ (EvReset ∉ trace w')
    /\ periodStart (ra w') = 10
    /\ periodEnd (ra w') = 20
    /\ Aggregator (ra w') = [metric (cpu 1); metric (cpu 2)]
    /\ Aggregator (ra w') <> @unwinding.Algorithm_Reset _ unwinding.panicking
                               (Aggregator (ra w')).
Proof.
  eexists. split; [vm_compute; reflexivity|].
  split; [reflexivity|]. split.
  - intros Hin. simpl in Hin.
    repeat (apply elem_of_cons in Hin; destruct Hin as [Hin|Hin]; [discriminate|]).
    apply elem_of_nil in Hin. exact Hin.
  - repeat split. discriminate.
Qed.

(** Started at 0 with a period of 10 and pushed at 10, the aggregator is in
    a reachable state whose window is [10, 20]. *)
Lemma C8_window_invariant_witness :
  exists w : World (list Metric),
    reachable w
    /\ window_ok (ra w)
    /\ periodStart (ra w) = 10
    /\ periodEnd (ra w) = 20.
Proof.
  destruct (@C8_window_invariant (list Metric) collect)
    as (Hstart & Hreach & _ & _).
  destruct (Hstart ∅ ∅ [] (config pass_all 10 0 0) None 0)
    as (w0 & Hw0 & Hs0 & He0 & Hc0).
  destruct (Push_run w0 10 0 [])
    as (w1 & since & until & Hpush & Hwin & Hs & He & _).
  assert (Hr : reachable w1).
  { eapply reach_Push; [eapply reach_start; exact Hw0 | exact Hpush]. }
  exists w1. split; [exact Hr|]. split; [exact (Hreach w1 Hr)|].
  rewrite Hs, He. rewrite He0, Hc0 in Hwin. simpl in Hwin.
  injection Hwin as -> ->. split; reflexivity.
Defined.

(** A Push that fails is still followed by Reset. *)
Example failing_push_is_reset :
  exists w',
    @Push _ failing 10 0 []
      {| heap := ∅; obligations := ∅;
         ra := {| Aggregator := [metric (cpu 1)]; Config := config pass_all 10 0 0;
                  periodStart := 0; periodEnd := 10; log := [];
                  MetricsPushed := 0; MetricsFiltered := 0; MetricsDropped := 0;
                  PushTime := 0; aggErrors := 0 |};
         trace := [] |}
    = Some ([AddError (Some "push failed"%string)], w')
    /\ Aggregator (ra w') = []
    /\ trace w' = [EvUpdateWindow 10 20; EvPush; EvReset].
Proof. eexists. split; [vm_compute; reflexivity|]. split; reflexivity. Qed.

End Push_claims.

(** ** The fan-out of [Gather] *)

Module Gather_claims.
Import telegraf kubernetes.
Local Open Scope nat_scope.

Lemma sum_list_insert {X} (f : X -> nat) (l : list X) (i : nat) (x y : X) :
  l !! i = Some x ->
  sum_list_with f (<[i := y]> l) + f x = sum_list_with f l + f y.
Proof.
  revert i. induction l as [|z l IH]; intros [|i] Hi; simpl in *; try discriminate.
  - injection Hi as ->. lia.
  - specialize (IH i Hi). lia.
Qed.

Lemma pending_call (gs : list (option (list AccCall))) (i : nat)
    (call : AccCall) (rest : list AccCall) :
  gs !! i = Some (Some (call :: rest)) ->
  pending gs ≡ₚ call :: pending (<[i := Some rest]> gs).
Proof.
  unfold pending. revert i.
  induction gs as [|g gs IH]; intros [|i] Hi; simpl in *; try discriminate.
  - injection Hi as ->. reflexivity.
  - rewrite (IH i Hi). symmetry. apply Permutation_middle.
Qed.

Lemma pending_done (gs : list (option (list AccCall))) (i : nat) :
  gs !! i = Some (Some []) ->
  pending (<[i := None]> gs) = pending gs.
Proof.
  unfold pending. revert i.
  induction gs as [|g gs IH]; intros [|i] Hi; simpl in *; try discriminate.
  - injection Hi as ->. reflexivity.
  - rewrite (IH i Hi). reflexivity.
Qed.

Lemma pending_app (gs1 gs2 : list (option (list AccCall))) :
  pending (gs1 ++ gs2) = pending gs1 ++ pending gs2.
Proof. unfold pending. rewrite map_app, concat_app. reflexivity. Qed.

Lemma active_zero (gs : list (option (list AccCall))) :
  active gs = 0 -> Forall (fun g => g = None) gs.
Proof.
  unfold active. induction gs as [|[l|] gs IH]; simpl; intros Hz.
  - constructor.
  - discriminate.
  - constructor; [reflexivity | apply IH; exact Hz].
Qed.

Lemma active_pos (gs : list (option (list AccCall))) :
  0 < active gs -> exists i calls, gs !! i = Some (Some calls).
Proof.
  unfold active. induction gs as [|[l|] gs IH]; simpl; intros Hp.
  - lia.
  - exists 0, l. reflexivity.
  - destruct (IH Hp) as (i & calls & Hi). exists (S i), calls. exact Hi.
Qed.

Lemma pending_finished (gs : list (option (list AccCall))) :
  Forall (fun g => g = None) gs -> pending gs = [].
Proof.
  unfold pending. induction 1 as [|g gs -> _ IH]; simpl; [reflexivity | exact IH].
Qed.

Section S.
Variable k : Kubernetes.
Variable c : Cluster.
Variable urls : list string.
Variable a0 : Accumulator.

Local Abbreviation Inv := (kubernetes.Inv k c urls a0).

Lemma Inv_fan_out : Inv (fan_out urls a0).
Proof. split; simpl; auto. Qed.

Lemma Inv_step (s s' : State) : Inv s -> step k c s s' -> Inv s'.
Proof.
  intros [Hc Hw Hn Hm] Hs. destruct Hs; simpl in *.
  - split; simpl.
    + rewrite pending_app. unfold pending at 2. simpl. rewrite app_nil_r.
      rewrite <- Hc. rewrite <- !app_assoc. reflexivity.
    + unfold active in *. rewrite sum_list_with_app. simpl. lia.
    + rewrite length_app. simpl. lia.
    + exact I.
  - split; simpl; auto.
  - split; simpl.
    + rewrite <- Hc. rewrite (pending_call gs i call rest H).
      destruct m; simpl; rewrite <- ?app_assoc; simpl; reflexivity.
    + unfold active in *.
      pose proof (sum_list_insert
                    (fun g : option (list AccCall) =>
                       match g with Some _ => 1 | None => 0 end)
                    gs i _ (Some rest) H). simpl in *. lia.
    + rewrite length_insert. destruct m; exact Hn.
    + destruct m; auto.
  - split; simpl.
    + rewrite (pending_done gs i H). destruct m; exact Hc.
    + unfold active in *.
      pose proof (sum_list_insert
                    (fun g : option (list AccCall) =>
                       match g with Some _ => 1 | None => 0 end)
                    gs i _ None H). simpl in *. lia.
    + rewrite length_insert. destruct m; exact Hn.
    + destruct m; auto. destruct Hm; lia.
  - split; simpl; auto.
Qed.

Lemma Inv_reachable (s : State) : rtc (step k c) (fan_out urls a0) s -> Inv s.
Proof.
  revert s. apply rtc_ind_r.
  - exact Inv_fan_out.
  - intros y z _ Hs IH. exact (Inv_step _ _ IH Hs).
Qed.

Lemma step_decreases (s s' : State) :
  step k c s s' -> steps_left k c s' < steps_left k c s.
Proof.
  intros Hs. destruct Hs; unfold steps_left; simpl.
  - rewrite sum_list_with_app. simpl. lia.
  - lia.
  - pose proof (sum_list_insert
                  (fun g : option (list AccCall) =>
                     match g with Some calls => 1 + length calls | None => 0 end)
                  gs i _ (Some rest) H). simpl in *. lia.
  - pose proof (sum_list_insert
                  (fun g : option (list AccCall) =>
                     match g with Some calls => 1 + length calls | None => 0 end)
                  gs i _ None H). simpl in *. lia.
  - lia.
Qed.

Lemma progress (s : State) :
  Inv s -> (forall err, main s <> Returned err) -> exists s', step k c s s'.
Proof.
  intros [Hc Hw Hn Hm] Hnr. destruct s as [m gs n a]; simpl in *.
  destruct m as [[|url us]| |err].
  - eexists. apply step_loop_end.
  - eexists. apply step_go.
  - destruct n as [|n].
    + eexists. apply step_wait.
    + destruct (active_pos gs ltac:(lia)) as (i & [|call rest] & Hi).
      * eexists. apply (step_done k c Waiting gs i n a Hi).
      * eexists. apply (step_call k c Waiting gs i call rest (S n) a Hi).
  - exfalso. exact (Hnr err eq_refl).
Qed.

Lemma completes (n : nat) (s : State) :
  steps_left k c s <= n -> Inv s ->
  exists s', rtc (step k c) s s' /\ exists err, main s' = Returned err.
Proof.
  revert s. induction n as [|n IH]; intros s Hn Hi.
  - destruct s as [[us| |err] gs w a]; unfold steps_left in Hn; simpl in Hn;
      try lia.
    eexists. split; [apply rtc_refl | eauto].
  - destruct (main s) as [us| |err] eqn:Hm.
    + destruct (progress s Hi) as [s' Hs]; [rewrite Hm; discriminate|].
      pose proof (step_decreases _ _ Hs).
      destruct (IH s' ltac:(lia) (Inv_step _ _ Hi Hs)) as (s'' & Hr & He).
      exists s''. split; [eapply rtc_l; eauto | exact He].
    + destruct (progress s Hi) as [s' Hs]; [rewrite Hm; discriminate|].
      pose proof (step_decreases _ _ Hs).
      destruct (IH s' ltac:(lia) (Inv_step _ _ Hi Hs)) as (s'' & Hr & He).
      exists s''. split; [eapply rtc_l; eauto | exact He].
    + exists s. split; [apply rtc_refl | eauto].
Qed.

End S.

(** C9: with no URL configured, [Gather] starts one goroutine per node URL
    and returns only when all of them have finished; every call of every
    target reaches the accumulator, each failure as an [AddError] of its
    own, whatever the other targets do; and [Gather] returns nil, for every
    list of targets, every outcome per target and every schedule. *)
Theorem C9_gather_fan_out (k : Kubernetes) (c : Cluster)
    (nodeBaseURLs : list string) (a0 : Accumulator) :
  URL k = ""%string ->
  getNodeURLs c = inr nodeBaseURLs ->
  (forall s : State,
      rtc (step k c) (fan_out nodeBaseURLs a0) s ->
      length (goroutines s) + length (unspawned (main s)) = length nodeBaseURLs
      /\ (forall err : option Err,
            main s = Returned err ->
            err = None
            /\ length (goroutines s) = length nodeBaseURLs
            /\ Forall (fun g => g = None) (goroutines s)
            /\ acc s ≡ₚ a0 ++ concat (map (task k c) nodeBaseURLs)
            /\ (forall (url : string) (e : Err),
                  url ∈ nodeBaseURLs ->
                  snd (gatherSummary k c url) = Some e ->
                  AddError (Some e) ∈ acc s))
      /\ ((forall err : option Err, main s <> Returned err) ->
          exists s', step k c s s')
      /\ (exists s', rtc (step k c) s s' /\ main s' = Returned None))
  /\ (forall s s' : State, step k c s s' -> steps_left k c s' < steps_left k c s)
  /\ (forall (err : option Err) (a' : Accumulator),
        Gather k c a0 err a' ->
        err = None /\ a' ≡ₚ a0 ++ concat (map (task k c) nodeBaseURLs))
  /\ (exists a', Gather k c a0 None a').
Proof.
  intros Hurl Hnodes.
  assert (Hret : forall s err,
             rtc (step k c) (fan_out nodeBaseURLs a0) s ->
             main s = Returned err ->
             err = None
             /\ length (goroutines s) = length nodeBaseURLs
             /\ Forall (fun g => g = None) (goroutines s)
             /\ acc s ≡ₚ a0 ++ concat (map (task k c) nodeBaseURLs)).
  { intros s err Hr Hm.
    destruct (Inv_reachable k c nodeBaseURLs a0 s Hr) as [Hc Hw Hn Hi].
    rewrite Hm in Hc, Hn, Hi. simpl in *. destruct Hi as [-> Hz].
    assert (Hfin : Forall (fun g => g = None) (goroutines s))
      by (apply active_zero; lia).
    rewrite (pending_finished _ Hfin), !app_nil_r in Hc.
    repeat split; auto. lia. }
  assert (Hdone : forall s,
             rtc (step k c) (fan_out nodeBaseURLs a0) s ->
             exists s', rtc (step k c) s s' /\ main s' = Returned None).
  { intros s Hr.
    destruct (completes k c nodeBaseURLs a0 (steps_left k c s) s (le_n _)
                (Inv_reachable k c nodeBaseURLs a0 s Hr)) as (s' & Hr' & err & He).
    exists s'. split; [exact Hr'|].
    destruct (Hret s' err (transitivity Hr Hr') He) as [-> _]. exact He. }
  split; [|split; [|split]].
  - intros s Hr. split; [|split; [|split]].
    + exact (inv_count k c nodeBaseURLs a0 s (Inv_reachable k c nodeBaseURLs a0 s Hr)).
    + intros err Hm. destruct (Hret s err Hr Hm) as (He & Hl & Hf & Hp).
      repeat split; auto.
      intros url e Hin Hsome. rewrite Hp.
      apply elem_of_app. right. apply list_elem_of_In, in_concat.
      exists (task k c url). split.
      * apply in_map, list_elem_of_In, Hin.
      * unfold task. destruct (gatherSummary k c url) as [calls err'].
        simpl in Hsome. subst err'. apply in_or_app. right. left. reflexivity.
    + intros Hnr. exact (progress k c nodeBaseURLs a0 s
                           (Inv_reachable k c nodeBaseURLs a0 s Hr) Hnr).
    + exact (Hdone s Hr).
  - exact (step_decreases k c).
  - intros err a' Hg. destruct Hg as [Hne | err Hu Hn | us s err Hu Hn Hr Hm].
    + contradiction.
    + rewrite Hnodes in Hn. discriminate.
    + rewrite Hnodes in Hn. injection Hn as <-.
      destruct (Hret s err Hr Hm) as (He & _ & _ & Hp). auto.
  - destruct (Hdone (fan_out nodeBaseURLs a0) (rtc_refl _ _)) as (s' & Hr & Hm).
    exists (acc s'). exact (Gather_fan_out k c a0 nodeBaseURLs s' None Hurl Hnodes Hr Hm).
Qed.

Import fixtures.

(** Two targets, the first of which fails: [Gather] returns nil, and the
    failure is in the accumulator beside the metrics of the second. *)
Lemma C9_gather_fan_out_witness :
  (URL plugin = ""%string
   /\ getNodeURLs two_nodes
      = inr ["https://10.0.0.1:10250"%string; "https://192.0.2.2:10250"%string])
  /\ exists a',
       Gather plugin two_nodes [] None a'
       /\ AddError (Some "connection refused"%string) ∈ a'
       /\ length a' = 4.
Proof.
  split; [split; reflexivity|].
  destruct (C9_gather_fan_out plugin two_nodes
              ["https://10.0.0.1:10250"%string; "https://192.0.2.2:10250"%string]
              [] eq_refl eq_refl) as (_ & _ & Hall & a' & Hg).
  exists a'. split; [exact Hg|].
  destruct (Hall None a' Hg) as [_ Hp]. split.
  - rewrite Hp. vm_compute. apply list_elem_of_here.
  - rewrite Hp. reflexivity.
Defined.

End Gather_claims.

(** ** Further properties of the running aggregator *)

Module Window_extras.
Import GoTime telegraf models window ticks GoTime_facts Add_facts Add_claims.

Ltac run_model :=
  unfold Add, Push, UpdateWindow, callAdd, callPush, callReset, logf,
    MetricsFiltered_Incr, MetricsDropped_Incr, PushTime_Incr, setAggregator,
    FromMetric, mutate, deref, self, update, emit,
    mbind, mret, M_bind, M_ret, bind, ret; simpl.

Section S.
Context {A : Type} `{!telegraf.Aggregator A}.

(** X1: with a period that is not negative, the window [Push] leaves always
    contains the wall clock reading it was called at; and when the clock has
    not gone back behind the old period end, the new window starts at or
    after that end and, for a positive period, ends strictly later. *)
Theorem Push_window_contains_now (w : World A) (now : Time) (elapsed : Duration)
    (acc : Accumulator) :
  0 <= Period (Config (ra w)) ->
  exists acc' w',
    Push now elapsed acc w = Some (acc', w')
    /\ periodStart (ra w') <= now <= periodEnd (ra w')
    /\ (periodEnd (ra w) <= now ->
        periodEnd (ra w) <= periodStart (ra w')
        /\ (0 < Period (Config (ra w)) -> periodEnd (ra w) < periodEnd (ra w'))).
Proof.
  intros HP.
  destruct (Push_run w now elapsed acc)
    as (w' & since & until & Hpush & Hwin & Hs & He & _).
  eexists _, w'. split; [exact Hpush|]. rewrite Hs, He.
  destruct ((now <? periodEnd (ra w))
            || (periodEnd (ra w) + Period (Config (ra w)) <? now)) eqn:Hj;
    injection Hwin as -> ->.
  - apply orb_true_iff in Hj. rewrite !Z.ltb_lt in Hj.
    destruct (Z.eq_dec (Period (Config (ra w))) 0) as [H0|Hn0].
    + rewrite H0 in *. rewrite Truncate_nonpositive by lia. lia.
    + pose proof (Truncate_bounds now (Period (Config (ra w))) ltac:(lia)). lia.
  - apply orb_false_iff in Hj. rewrite !Z.ltb_ge in Hj. lia.
Qed.

(** X2: windows stay aligned.  For a positive period, a window that [Push]
    re-anchors starts and ends on a multiple of the period, and a window
    whose end is on a multiple of the period is followed by one that starts
    and ends on multiples of it, whichever branch [Push] takes. *)
Theorem Push_keeps_alignment (w : World A) (now : Time) (elapsed : Duration)
    (acc : Accumulator) :
  0 < Period (Config (ra w)) ->
  exists acc' w',
    Push now elapsed acc w = Some (acc', w')
    /\ (now < periodEnd (ra w) \/ periodEnd (ra w) + Period (Config (ra w)) < now
        \/ (Period (Config (ra w)) | periodEnd (ra w)) ->
        (Period (Config (ra w)) | periodStart (ra w'))
        /\ (Period (Config (ra w)) | periodEnd (ra w'))).
Proof.
  intros HP.
  destruct (Push_run w now elapsed acc)
    as (w' & since & until & Hpush & Hwin & Hs & He & _).
  eexists _, w'. split; [exact Hpush|]. rewrite Hs, He. intros Hc.
  assert (Hfloor : (Period (Config (ra w)) | Truncate now (Period (Config (ra w))))).
  { rewrite (Truncate_floor _ _ HP). apply Z.divide_factor_l. }
  destruct ((now <? periodEnd (ra w))
            || (periodEnd (ra w) + Period (Config (ra w)) <? now)) eqn:Hj;
    injection Hwin as -> ->.
  - split; [exact Hfloor|]. apply Z.divide_add_r; [exact Hfloor | apply Z.divide_refl].
  - apply orb_false_iff in Hj. rewrite !Z.ltb_ge in Hj.
    destruct Hc as [Hc|[Hc|Hc]]; try lia.
    split; [exact Hc|]. apply Z.divide_add_r; [exact Hc | apply Z.divide_refl].
Qed.

(** X3: a point that arrives too late for the current window is picked up
    by the next one.  With grace and delay not negative, a point stamped
    after periodEnd + delay but no later than periodEnd + period + delay is
    dropped by [Add] now, and forwarded to the algorithm by [Add] once a
    regular [Push] has advanced the window. *)
Theorem late_point_admitted_after_Push (w : World A) (m : loc) (orig : Object)
    (now : Time) (elapsed : Duration) (acc : Accumulator) :
  heap w !! m = Some orig ->
  passes (cfgFilter (Config (ra w))) (metric orig) = true ->
  FieldList (metric (prepared (cfgFilter (Config (ra w))) orig)) <> [] ->
  0 <= Grace (Config (ra w)) <= max_int64 ->
  0 <= Delay (Config (ra w)) ->
  periodEnd (ra w) <= now <= periodEnd (ra w) + Period (Config (ra w)) ->
  periodEnd (ra w) + Delay (Config (ra w))
    < MetricTime (metric (prepared (cfgFilter (Config (ra w))) orig))
    <= periodEnd (ra w) + Period (Config (ra w)) + Delay (Config (ra w)) ->
  exists w1 acc' w2 w3,
    Add m w = Some (DropOriginal (Config (ra w)), w1)
    /\ trace w1 = trace w
    /\ MetricsDropped (ra w1) = Incr (MetricsDropped (ra w)) 1
    /\ Push now elapsed acc w1 = Some (acc', w2)
    /\ Add m w2 = Some (DropOriginal (Config (ra w)), w3)
    /\ trace w3 =
         trace w2 ++ [EvAdd (fresh_loc (heap w2))
                        (prepared (cfgFilter (Config (ra w))) orig)]
    /\ MetricsDropped (ra w3) = MetricsDropped (ra w2).
Proof.
  intros Hm Hp Hf Hg Hd Hnow Ht.
  assert (Hg' : min_int64 < Grace (Config (ra w)) <= max_int64)
    by (unfold min_int64; lia).
  destruct (Add_run w m orig Hm) as (w1 & Hadd1 & Hpost1).
  destruct (outcome_cases (Config (ra w)) (periodStart (ra w)) (periodEnd (ra w))
              orig Hg' Hp Hf) as [[Hin _]|[_ Ho1]];
    [unfold admitted in Hin; lia|].
  pose proof (post_trace _ _ _ Hpost1) as Htr1.
  pose proof (post_MetricsDropped _ _ _ Hpost1) as Hdr1.
  pose proof (post_heap _ _ _ Hpost1) as Hh1.
  rewrite Ho1 in Hadd1, Htr1, Hdr1, Hh1. rewrite app_nil_r in Htr1.
  assert (Hm1 : heap w1 !! m = Some orig).
  { rewrite Hh1, lookup_insert_ne; [exact Hm|].
    pose proof (fresh_loc_free (heap w)). congruence. }
  destruct (Push_run w1 now elapsed acc)
    as (w2 & since & until & Hpush & Hwin & Hs & He & Hc & _ & _ & _ & Hh2 & _).
  rewrite (post_periodEnd _ _ _ Hpost1), (post_Config _ _ _ Hpost1) in Hwin.
  assert (Hj : (now <? periodEnd (ra w))
               || (periodEnd (ra w) + Period (Config (ra w)) <? now) = false).
  { apply orb_false_iff. rewrite !Z.ltb_ge. lia. }
  rewrite Hj in Hwin. injection Hwin as -> ->.
  assert (Hc2 : Config (ra w2) = Config (ra w))
    by (rewrite Hc; exact (post_Config _ _ _ Hpost1)).
  assert (Hm2 : heap w2 !! m = Some orig) by (rewrite Hh2; exact Hm1).
  destruct (Add_run w2 m orig Hm2) as (w3 & Hadd3 & Hpost3).
  pose proof (post_trace _ _ _ Hpost3) as Htr3.
  pose proof (post_MetricsDropped _ _ _ Hpost3) as Hdr3.
  rewrite Hc2, Hs, He in Hadd3, Htr3, Hdr3.
  destruct (outcome_cases (Config (ra w)) (periodEnd (ra w))
              (periodEnd (ra w) + Period (Config (ra w)))
              orig Hg' Hp Hf) as [[_ Ho3]|[Hout _]];
    [|exfalso; apply Hout; unfold admitted; lia].
  rewrite Ho3 in Hadd3, Htr3, Hdr3.
  eexists w1, _, w2, w3.
  split; [exact Hadd1|]. split; [exact Htr1|]. split; [exact Hdr1|].
  split; [exact Hpush|]. split; [exact Hadd3|]. split; [exact Htr3 | exact Hdr3].
Qed.

(** X4: the footprint of [Add].  A point that Select declines without an
    error leaves none: [Add] answers false and the aggregator, the metric
    objects, the log and the statistics are exactly as before.  On every
    path that ends before the algorithm is called, the algorithm and the
    trace are untouched and the errors statistic moves only when Select
    failed, and then by one.  A point dropped by the window is written to
    the log at debug level, after the filtering error if there was one, and
    counted as dropped; the debug entry is not counted as an error.  Once
    the algorithm is called it may write to the same logger, which it is
    handed at construction: nothing is stated about the errors statistic
    on that path. *)
Theorem Add_footprint (w : World A) (m : loc) (orig : Object) :
  heap w !! m = Some orig ->
  exists b w',
    Add m w = Some (b, w')
    /\ (Select (cfgFilter (Config (ra w))) (metric orig) = (false, None) ->
        b = false /\ w' = w)
    /\ (outcome (Config (ra w)) (periodStart (ra w)) (periodEnd (ra w)) orig
        <> Accepted ->
        Aggregator (ra w') = Aggregator (ra w)
        /\ trace w' = trace w
        /\ aggErrors (ra w') =
             match select_error (cfgFilter (Config (ra w))) (metric orig) with
             | Some _ => Incr (aggErrors (ra w)) 1
             | None => aggErrors (ra w)
             end)
    /\ (outcome (Config (ra w)) (periodStart (ra w)) (periodEnd (ra w)) orig
        = OutOfWindow ->
        log (ra w') =
          log (ra w)
          ++ match select_error (cfgFilter (Config (ra w))) (metric orig) with
             | Some e => [ErrFilteringFailed e]
             | None => []
             end
          ++ [DbgOutsideWindow
                (MetricTime (Modify (cfgFilter (Config (ra w))) (metric orig)))
                (periodStart (ra w)) (periodEnd (ra w)) (Grace (Config (ra w)))]
        /\ MetricsDropped (ra w') = Incr (MetricsDropped (ra w)) 1
        /\ b = DropOriginal (Config (ra w))).
Proof.
  intros Hm. destruct w as [h ob r tr]; simpl in *.
  destruct (Select (cfgFilter (Config r)) (metric orig)) as [ok err] eqn:Hs.
  destruct (length (FieldList (Modify (cfgFilter (Config r)) (metric orig))) =? 0)%nat
    eqn:Hlen;
  destruct (Before (MetricTime (Modify (cfgFilter (Config r)) (metric orig)))
              (GoTime.Add (periodStart r) (neg64 (Grace (Config r))))
            || After (MetricTime (Modify (cfgFilter (Config r)) (metric orig)))
                 (GoTime.Add (periodEnd r) (Delay (Config r)))) eqn:Hwin;
  destruct err as [e|]; destruct ok;
  unfold outcome, passes, select_error, prepared, untracked; run_model;
  rewrite ?Hm, ?Hs; simpl;
  repeat (first [rewrite Hm | rewrite lookup_insert_eq
                | rewrite insert_insert_eq | rewrite Hlen | rewrite Hwin]; simpl);
  (eexists _, _; split; [reflexivity|]; split;
   [intros Hd; first [discriminate Hd
                     | split; [reflexivity | destruct r; reflexivity]]
   | split; intros Ho; first [discriminate Ho | contradiction
                             | simpl; rewrite <- ?app_assoc; repeat split; reflexivity ]]).
Qed.

(** X17: regular ticks do not drift.  When the clock reading of every tick
    lies within the window that tick is to open, however late within it, a
    run of n ticks leaves the window exactly n periods after where it
    was, each tick having updated it once. *)
Theorem Pushes_do_not_drift (ticks : list (Time * Duration)) (w : World A)
    (acc : Accumulator) :
  (forall (i : nat) (now : Time) (elapsed : Duration),
      ticks !! i = Some (now, elapsed) ->
      periodEnd (ra w) + Z.of_nat i * Period (Config (ra w)) <= now
      <= periodEnd (ra w) + (Z.of_nat i + 1) * Period (Config (ra w))) ->
  exists acc' w',
    Pushes ticks acc w = Some (acc', w')
    /\ Config (ra w') = Config (ra w)
    /\ periodEnd (ra w')
       = periodEnd (ra w) + Z.of_nat (length ticks) * Period (Config (ra w))
    /\ (ticks <> [] ->
        periodStart (ra w')
        = periodEnd (ra w) + (Z.of_nat (length ticks) - 1) * Period (Config (ra w)))
    /\ count_updates (trace w') = (count_updates (trace w) + length ticks)%nat.
Proof.
  revert w acc. induction ticks as [|[now elapsed] rest IH]; intros w acc Hticks.
  - exists acc, w. split; [reflexivity|]. split; [reflexivity|].
    split; [simpl; lia|]. split; [congruence | simpl; lia].
  - destruct (Push_run w now elapsed acc)
      as (w1 & since & until & Hpush & Hwin & Hs & He & Hc & Htr & _).
    pose proof (Hticks 0%nat now elapsed eq_refl) as H0. simpl in H0.
    assert (Hj : (now <? periodEnd (ra w))
                 || (periodEnd (ra w) + Period (Config (ra w)) <? now) = false).
    { apply orb_false_iff. rewrite !Z.ltb_ge. lia. }
    rewrite Hj in Hwin. injection Hwin as -> ->.
    destruct (IH w1 (Aggregator_Push acc (Aggregator (ra w))).2)
      as (acc' & w' & Hrun & Hc' & He' & Hs' & Hn').
    { intros i n e Hi. rewrite He, Hc.
      pose proof (Hticks (S i) n e Hi) as HSi. lia. }
    exists acc', w'. split.
    { simpl. unfold mbind, M_bind, bind. rewrite Hpush. exact Hrun. }
    rewrite Hc', He', Hn', Hc, He, Htr.
    split; [reflexivity|]. split; [simpl length; lia|]. split.
    + intros _. destruct rest as [|t rest'].
      * simpl in Hrun. injection Hrun as _ <-. rewrite Hs. simpl. lia.
      * rewrite Hs' by discriminate. rewrite He, Hc. simpl length. lia.
    + unfold count_updates. rewrite List.filter_app, length_app. simpl. lia.
Qed.

End S.

Import fixtures.

(** With the window at [0 s, 10 s], no grace and no delay, a point stamped
    11 s is dropped; pushed at 10 s the window is [10 s, 20 s] and the same
    point is forwarded. *)
Lemma late_point_admitted_after_Push_witness :
  (heap (world (config pass_all (10 * Second) 0 0) 0 (10 * Second) (cpu (11 * Second)))
     !! 1%positive = Some (cpu (11 * Second))
   /\ 10 * Second <= 10 * Second <= 10 * Second + 10 * Second
   /\ 10 * Second + 0 < 11 * Second <= 10 * Second + 10 * Second + 0)
  /\ exists w1 acc' w2 w3,
       Add 1%positive
         (world (config pass_all (10 * Second) 0 0) 0 (10 * Second) (cpu (11 * Second)))
       = Some (true, w1)
       /\ trace w1 = []
       /\ Push (10 * Second) 0 [] w1 = Some (acc', w2)
       /\ Add 1%positive w2 = Some (true, w3)
       /\ exists c, trace w3 = trace w2 ++ [EvAdd c (untracked (cpu (11 * Second)))].
Proof.
  split; [split; [reflexivity | unfold Second; lia]|].
  destruct (late_point_admitted_after_Push
              (world (config pass_all (10 * Second) 0 0) 0 (10 * Second)
                     (cpu (11 * Second)))
              1%positive (cpu (11 * Second)) (10 * Second) 0 []
              eq_refl eq_refl ltac:(discriminate)
              ltac:(unfold max_int64; simpl; lia)
              ltac:(simpl; lia)
              ltac:(unfold Second; simpl; lia)
              ltac:(unfold Second; simpl; lia))
    as (w1 & acc' & w2 & w3 & Ha1 & Ht1 & _ & Hp & Ha3 & Ht3 & _).
  exists w1, acc', w2, w3.
  split; [exact Ha1|]. split; [exact Ht1|]. split; [exact Hp|].
  split; [exact Ha3 | eexists; exact Ht3].
Defined.

(** Pushed at 25 with the window ending at 7 and a period of 10, the
    aggregator is left with the window [20, 30]. *)
Lemma Push_window_contains_now_witness :
  0 <= 10
  /\ exists acc' w',
       Push 25 0 [] (world (config pass_all 10 0 0) (-3) 7 (cpu 0)) = Some (acc', w')
       /\ periodStart (ra w') <= 25 <= periodEnd (ra w')
       /\ 7 <= periodStart (ra w').
Proof.
  split; [lia|].
  destruct (Push_window_contains_now (world (config pass_all 10 0 0) (-3) 7 (cpu 0))
              25 0 [] ltac:(simpl; lia))
    as (acc' & w' & Hpush & Hin & Hfw).
  exists acc', w'. split; [exact Hpush|]. split; [exact Hin|].
  apply Hfw. simpl. lia.
Defined.

Lemma Push_keeps_alignment_witness :
  0 < 10
  /\ exists acc' w',
       Push 25 0 [] (world (config pass_all 10 0 0) (-3) 7 (cpu 0)) = Some (acc', w')
       /\ (10 | periodStart (ra w'))
       /\ (10 | periodEnd (ra w')).
Proof.
  split; [lia|].
  destruct (Push_keeps_alignment (world (config pass_all 10 0 0) (-3) 7 (cpu 0))
              25 0 [] ltac:(simpl; lia))
    as (acc' & w' & Hpush & Hal).
  exists acc', w'. split; [exact Hpush|].
  apply Hal. right. left. simpl. lia.
Defined.

(** With the window at [0, 10], a point stamped 11 that Select fails on is
    dropped by the window: one error is counted, for the filter, and the
    log holds the filtering error and then the debug entry. *)
Lemma Add_footprint_witness :
  heap (world (config broken 10 0 0) 0 10 (cpu 11)) !! 1%positive = Some (cpu 11)
  /\ exists b w',
       Add 1%positive (world (config broken 10 0 0) 0 10 (cpu 11)) = Some (b, w')
       /\ aggErrors (ra w') = 1
       /\ log (ra w') = [ErrFilteringFailed "malformed pattern"%string;
                         DbgOutsideWindow 11 0 10 0]
       /\ MetricsDropped (ra w') = 1
       /\ Aggregator (ra w') = [].
Proof.
  split; [reflexivity|].
  destruct (Add_footprint (world (config broken 10 0 0) 0 10 (cpu 11))
              1%positive (cpu 11) eq_refl)
    as (b & w' & Hadd & _ & Herr & Hlog).
  destruct (Herr ltac:(discriminate)) as (Hagg & _ & Hcount).
  destruct (Hlog eq_refl) as (Hl & Hd & _).
  exists b, w'. split; [exact Hadd|].
  split; [rewrite Hcount; reflexivity|].
  split; [rewrite Hl; reflexivity|].
  split; [rewrite Hd; reflexivity | rewrite Hagg; reflexivity].
Defined.

(** Three ticks of a 10 s period, each a little late: the window has moved
    three periods, to [30 s, 40 s]. *)
Lemma Pushes_do_not_drift_witness :
  exists acc' w',
    Pushes [(10000000007, 0); (20000000900, 0); (30000000001, 0)] []
      (world (config pass_all (10 * Second) 0 0) 0 (10 * Second) (cpu 0))
    = Some (acc', w')
    /\ periodStart (ra w') = 30 * Second
    /\ periodEnd (ra w') = 40 * Second.
Proof.
  destruct (Pushes_do_not_drift
              [(10000000007, 0); (20000000900, 0); (30000000001, 0)]
              (world (config pass_all (10 * Second) 0 0) 0 (10 * Second) (cpu 0)) [])
    as (acc' & w' & Hrun & _ & He & Hs & _).
  { intros [|[|[|i]]] now elapsed Hi; simpl in Hi; try discriminate;
      injection Hi as <- <-; unfold Second; simpl; lia. }
  exists acc', w'. split; [exact Hrun|].
  split; [rewrite Hs by discriminate; reflexivity | rewrite He; reflexivity].
Defined.

End Window_extras.

(** ** Further properties of the Kubernetes input *)

Module Kubernetes_extras.
Import telegraf kubernetes kubernetes_init kubernetes_terms.
Local Open Scope string_scope.
Local Open Scope list_scope.
Local Open Scope stdpp_scope.
Local Open Scope nat_scope.

Lemma getNodeAddress_loop_none (l : list NodeAddress) (ext : list string) :
  Forall notInternal l ->
  getNodeAddress_loop l ext =
  match ext ++ map Address l with a :: _ => a | [] => "" end.
Proof.
  intros Hl. revert ext. induction Hl as [|a l Ha _ IH]; intros ext; simpl.
  - rewrite app_nil_r. reflexivity.
  - unfold notInternal in Ha. destruct (Type_ a) eqn:Ht; try congruence;
      rewrite IH, <- app_assoc; reflexivity.
Qed.

Lemma getNodeAddress_loop_internal (l1 : list NodeAddress) (a : NodeAddress)
    (l2 : list NodeAddress) (ext : list string) :
  Forall notInternal l1 -> Type_ a = NodeInternalIP ->
  getNodeAddress_loop (l1 ++ a :: l2) ext = Address a.
Proof.
  intros Hl Ha. revert ext. induction Hl as [|b l1 Hb _ IH]; intros ext; simpl.
  - rewrite Ha. reflexivity.
  - unfold notInternal in Hb. destruct (Type_ b) eqn:Ht; try congruence; apply IH.
Qed.

(** X5: [getNodeAddress] answers with the first internal IP of the node,
    wherever it stands in the list; when the node has no internal IP it
    answers with the first address listed, of whatever type, and with the
    empty string when no address is listed. *)
Theorem getNodeAddress_prefers_internal (addresses : list NodeAddress) :
  (forall (l1 : list NodeAddress) (a : NodeAddress) (l2 : list NodeAddress),
      addresses = l1 ++ a :: l2 ->
      Forall (fun x => Type_ x <> NodeInternalIP) l1 ->
      Type_ a = NodeInternalIP ->
      getNodeAddress addresses = Address a)
  /\ (Forall (fun x => Type_ x <> NodeInternalIP) addresses ->
      getNodeAddress addresses =
      match addresses with a :: _ => Address a | [] => "" end).
Proof.
  split.
  - intros l1 a l2 -> Hl Ha. apply getNodeAddress_loop_internal; assumption.
  - intros Hl. unfold getNodeAddress. rewrite getNodeAddress_loop_none by exact Hl.
    destruct addresses; reflexivity.
Qed.

Lemma getNodeURLs_fold (nodes : list K8sNode) (urls : list string) :
  foldl (fun nodeUrls n =>
           let address := getNodeAddress (Status_Addresses n) in
           if String.eqb address "" then nodeUrls
           else nodeUrls ++ ["https://" +:+ address +:+ ":10250"])
        urls nodes
  = urls ++ map nodeURL
              (filter (fun a => a <> "")
                      (map (fun n => getNodeAddress (Status_Addresses n)) nodes)).
Proof.
  revert urls. induction nodes as [|n nodes IH]; intros urls; simpl.
  - rewrite app_nil_r. reflexivity.
  - rewrite IH. rewrite filter_cons.
    destruct (String.eqb_spec (getNodeAddress (Status_Addresses n)) "") as [He|Hne].
    + rewrite decide_False by (intros Hn; apply Hn; exact He). reflexivity.
    + rewrite decide_True by exact Hne. simpl. rewrite <- app_assoc. reflexivity.
Qed.

(** X6: [getNodeURLs] fails with the error of listing the nodes; otherwise
    it answers, in the order of the nodes, with https://ADDRESS:10250 for
    the address [getNodeAddress] picks for each node, leaving out the nodes
    for which that address is empty; so it never answers with more URLs
    than there are nodes. *)
Theorem getNodeURLs_one_per_addressable_node (c : Cluster) :
  match listNodes c with
  | inl err => getNodeURLs c = inl err
  | inr nodes =>
      exists urls,
        getNodeURLs c = inr urls
        /\ urls = map nodeURL
                    (filter (fun a => a <> "")
                            (map (fun n => getNodeAddress (Status_Addresses n)) nodes))
        /\ length urls <= length nodes
  end.
Proof.
  unfold getNodeURLs. destruct (listNodes c) as [err|nodes]; [reflexivity|].
  eexists. split; [reflexivity|]. rewrite getNodeURLs_fold. simpl.
  split; [reflexivity|].
  rewrite length_map. etransitivity; [apply length_filter|].
  rewrite length_map. lia.
Qed.


Lemma buildPodMetrics_AddFields (sm : summaryMetrics) (podInfo : list item)
    (labelMatch : string -> bool) :
  Forall isAddFields (buildPodMetrics sm podInfo labelMatch).
Proof.
  unfold buildPodMetrics. induction (Pods sm) as [|pod pods IH]; simpl;
    [constructor|].
  apply Forall_app. split; [|exact IH].
  destruct (foldl _ _ podInfo) as [podLabels containerImages].
  rewrite !Forall_app. repeat split.
  - apply Forall_map, Forall_true. intros x. exact I.
  - apply Forall_map, Forall_true. intros x. exact I.
  - repeat constructor.
Qed.

(** [gatherSummary] makes no call on the accumulator other than adding
    points. *)
Lemma gatherSummary_only_adds_fields (k : Kubernetes) (c : Cluster) (baseURL : string) :
  Forall isAddFields (gatherSummary k c baseURL).1.
Proof.
  unfold gatherSummary, gatherPodInfo.
  destruct (loadSummary c _) as [err|sm]; [constructor|].
  destruct (loadPods c _) as [err|podInfos]; [constructor|]. cbn [fst].
  rewrite !Forall_app. split; [|split].
  - unfold buildSystemContainerMetrics. apply Forall_map, Forall_true.
    intros x. exact I.
  - repeat constructor.
  - apply buildPodMetrics_AddFields.
Qed.


(** *** The tags of the pod metrics *)

Lemma Split_length (s : string) (sep : Ascii.ascii) :
  length (Split s sep) = S (count_char sep s).
Proof.
  induction s as [|c s IH]; simpl; [reflexivity|].
  destruct (Ascii.eqb c sep); simpl; [rewrite IH; reflexivity|].
  destruct (Split s sep) as [|tok toks]; simpl in *; [discriminate | exact IH].
Qed.

Lemma Split_one (s : string) (sep : Ascii.ascii) (tok : string) :
  Split s sep = [tok] -> tok = s.
Proof.
  revert tok. induction s as [|c s IH]; intros tok; simpl.
  - intros [= <-]. reflexivity.
  - destruct (Ascii.eqb c sep).
    + intros [= _ Hs]. pose proof (Split_length s sep) as Hl.
      rewrite Hs in Hl. discriminate.
    + destruct (Split s sep) as [|t ts] eqn:Hs.
      * pose proof (Split_length s sep) as Hl. rewrite Hs in Hl. discriminate.
      * intros [= <- ->]. rewrite (IH t eq_refl). reflexivity.
Qed.

Lemma Split_two (s : string) (sep : Ascii.ascii) (a b : string) :
  Split s sep = [a; b] -> s = a +:+ String sep b.
Proof.
  revert a. induction s as [|c s IH]; intros a; simpl.
  - discriminate.
  - destruct (Ascii.eqb_spec c sep) as [->|Hne].
    + intros [= <- Hs]. rewrite (Split_one _ _ _ Hs). reflexivity.
    + destruct (Split s sep) as [|t ts] eqn:Hs; [discriminate|].
      intros [= <- ->]. rewrite (IH t eq_refl). reflexivity.
Qed.

Lemma podTables_labels (labelMatch : string -> bool) (pod : podMetrics)
    (podInfo : list item) (init : gmap string string * gmap string string)
    (key value : string) :
  (podTables labelMatch pod podInfo init).1 !! key = Some value ->
  init.1 !! key = Some value
  \/ (labelMatch key = true
      /\ exists info, info ∈ podInfo
                      /\ Metadata_Name info = PodRef_Name (PodRef pod)
                      /\ Metadata_Namespace info = PodRef_Namespace (PodRef pod)
                      /\ Metadata_Labels info !! key = Some value).
Proof.
  unfold podTables. revert init.
  induction podInfo as [|info podInfo IH]; intros [pl ci]; simpl; [auto|].
  intros Hk. apply IH in Hk. destruct Hk as [Hk|(Hm & i & Hi & Hrest)].
  - destruct (String.eqb_spec (Metadata_Name info) (PodRef_Name (PodRef pod)));
      destruct (String.eqb_spec (Metadata_Namespace info)
                                (PodRef_Namespace (PodRef pod)));
      simpl in Hk; auto.
    unfold copyInto in Hk. apply lookup_union_Some_raw in Hk.
    destruct Hk as [Hk|[_ Hk]]; [|auto].
    apply map_lookup_filter_Some in Hk. destruct Hk as [Hk Hm]. simpl in Hm.
    right. split; [exact Hm|]. exists info. repeat split; auto. apply list_elem_of_here.
  - right. split; [exact Hm|]. exists i. split; [|exact Hrest].
    apply list_elem_of_further, Hi.
Qed.

Lemma podTags_with_labels (sm : summaryMetrics) (labelMatch : string -> bool)
    (podInfo : list item) (podLabels tags : gmap string string) :
  (forall key value : string,
      podLabels !! key = Some value ->
      labelMatch key = true
      /\ exists info, info ∈ podInfo /\ Metadata_Labels info !! key = Some value) ->
  podTagsOk sm (fun _ => false) [] tags ->
  podTagsOk sm labelMatch podInfo (copyInto podLabels tags).
Proof.
  intros Hl (Hkeys & Hnode & Hver). unfold copyInto.
  assert (Hnot : forall key, labelMatch key = false -> podLabels !! key = None).
  { intros key Hf. destruct (podLabels !! key) as [v|] eqn:Hv; [|reflexivity].
    destruct (Hl key v Hv) as [Ht _]. congruence. }
  split; [|split].
  - intros key value Hk. apply lookup_union_Some_raw in Hk.
    destruct Hk as [Hk|[_ Hk]]; [right; exact (Hl key value Hk)|].
    destruct (Hkeys key value Hk) as [Hb|[Hf _]]; [left; exact Hb | discriminate].
  - intros Hf. rewrite lookup_union_r by (apply Hnot, Hf). apply Hnode. reflexivity.
  - intros Hi Hv. rewrite !lookup_union_r by (apply Hnot; assumption).
    apply Hver; reflexivity.
Qed.

Ltac tag_keys H :=
  repeat (apply lookup_insert_Some in H; destruct H as [[<- _]|[_ H]];
          [left; unfold builtinTags;
           repeat first [apply list_elem_of_here | apply list_elem_of_further]|]);
  rewrite lookup_empty in H; discriminate H.

Lemma containerTags_ok (sm : summaryMetrics) (pod : podMetrics)
    (container : containerMetrics) (containerImages : gmap string string) :
  podTagsOk sm (fun _ => false) []
    (match containerImages !! container_Name container with
     | Some v =>
         match Split v ":" with
         | [_; version] =>
             <["version" := version]>
               (<["image" := v]>
                  (<["node_name" := NodeName (Node sm)]>
                     (<["namespace" := PodRef_Namespace (PodRef pod)]>
                        (<["container_name" := container_Name container]>
                           (<["pod_name" := PodRef_Name (PodRef pod)]> ∅)))))
         | _ =>
             <["image" := v]>
               (<["node_name" := NodeName (Node sm)]>
                  (<["namespace" := PodRef_Namespace (PodRef pod)]>
                     (<["container_name" := container_Name container]>
                        (<["pod_name" := PodRef_Name (PodRef pod)]> ∅))))
         end
     | None =>
         <["node_name" := NodeName (Node sm)]>
           (<["namespace" := PodRef_Namespace (PodRef pod)]>
              (<["container_name" := container_Name container]>
                 (<["pod_name" := PodRef_Name (PodRef pod)]> ∅)))
     end).
Proof.
  destruct (containerImages !! container_Name container) as [v|].
  - pose proof (Split_length v ":") as Hlen.
    destruct (Split v ":") as [|a [|b [|x l]]] eqn:Hs; simpl in Hlen;
      [discriminate Hlen | | |];
      (split; [intros key value Hk; tag_keys Hk|]);
      (split; [intros _; rewrite ?lookup_insert_ne by discriminate;
               apply lookup_insert_eq|]);
      intros _ _; rewrite ?(lookup_insert_ne _ "version" "image") by discriminate;
      rewrite lookup_insert_eq.
    + split; [intros Hc; lia|]. intros _.
      rewrite !lookup_insert_ne by discriminate. apply lookup_empty.
    + split; [|intros Hc; lia]. intros _. exists a, b.
      split; [exact (Split_two _ _ _ _ Hs) | apply lookup_insert_eq].
    + split; [intros Hc; lia|]. intros _.
      rewrite !lookup_insert_ne by discriminate. apply lookup_empty.
  - split; [intros key value Hk; tag_keys Hk|].
    split; [intros _; apply lookup_insert_eq|].
    intros _ _. rewrite !lookup_insert_ne by discriminate. rewrite lookup_empty.
    apply lookup_empty.
Qed.

Lemma buildPodMetrics_tags (sm : summaryMetrics) (podInfo : list item)
    (labelMatch : string -> bool) (m : string) (f : list string)
    (tags : gmap string string) :
  AddFields m f tags ∈ buildPodMetrics sm podInfo labelMatch ->
  podTagsOk sm labelMatch podInfo tags.
Proof.
  intros Hin. apply list_elem_of_In in Hin. unfold buildPodMetrics in Hin.
  apply in_flat_map in Hin. destruct Hin as (pod & _ & Hin).
  change (foldl _ _ podInfo) with (podTables labelMatch pod podInfo (∅, ∅)) in Hin.
  pose proof (podTables_labels labelMatch pod podInfo (∅, ∅)) as Hl.
  destruct (podTables labelMatch pod podInfo (∅, ∅)) as [podLabels containerImages].
  simpl in Hl.
  assert (Hl' : forall key value : string,
             podLabels !! key = Some value ->
             labelMatch key = true
             /\ exists info, info ∈ podInfo
                             /\ Metadata_Labels info !! key = Some value).
  { intros key value Hk. destruct (Hl key value Hk) as [He|(Hm & i & Hi & _ & _ & Hv)].
    - rewrite lookup_empty in He. discriminate.
    - eauto. }
  apply in_app_or in Hin. destruct Hin as [Hin|Hin];
    [|apply in_app_or in Hin; destruct Hin as [Hin|[Hin|[]]]].
  - apply in_map_iff in Hin. destruct Hin as (container & Heq & _).
    injection Heq as _ _ <-. apply podTags_with_labels; [exact Hl'|].
    apply containerTags_ok.
  - apply in_map_iff in Hin. destruct Hin as (volume & Heq & _).
    injection Heq as _ _ <-. apply podTags_with_labels; [exact Hl'|].
    split; [intros key value Hk; tag_keys Hk|].
    split; [intros _; apply lookup_insert_eq|].
    intros _ _. rewrite !lookup_insert_ne by discriminate. rewrite lookup_empty.
    apply lookup_empty.
  - injection Hin as _ _ <-. apply podTags_with_labels; [exact Hl'|].
    split; [intros key value Hk; tag_keys Hk|].
    split; [intros _; apply lookup_insert_eq|].
    intros _ _. rewrite !lookup_insert_ne by discriminate. rewrite lookup_empty.
    apply lookup_empty.
Qed.

(** X8: every tag of a pod metric is either one of the tags the plugin
    sets itself, or a label of a listed pod whose key the label filter
    accepts, with that pod's value: a label the filter rejects never becomes
    a tag.  The node name tag is there whenever the filter does not accept a
    label of that name. *)
Theorem pod_tags_are_builtin_or_accepted_labels (sm : summaryMetrics)
    (podInfo : list item) (labelMatch : string -> bool)
    (m : string) (f : list string) (tags : gmap string string) :
  AddFields m f tags ∈ buildPodMetrics sm podInfo labelMatch ->
  (forall key value : string,
      tags !! key = Some value ->
      key ∈ ["node_name"; "namespace"; "container_name"; "pod_name";
             "volume_name"; "image"; "version"]
      \/ (labelMatch key = true
          /\ exists info, info ∈ podInfo /\ Metadata_Labels info !! key = Some value))
  /\ (labelMatch "node_name" = false ->
      tags !! "node_name" = Some (NodeName (Node sm))).
Proof.
  intros Hin. destruct (buildPodMetrics_tags _ _ _ _ _ _ Hin) as (Hk & Hn & _).
  split; assumption.
Qed.

(** X9: the version tag is the part of the image after its colon, when the
    image has exactly one.  Provided the label filter accepts no label named
    image or version: a pod metric with an image that contains exactly one
    colon has a version tag, and the image is NAME:VERSION; with an image
    that contains none or several (a registry with a port, a digest), or
    with no image tag, it has no version tag. *)
Theorem version_tag_needs_exactly_one_colon (sm : summaryMetrics)
    (podInfo : list item) (labelMatch : string -> bool)
    (m : string) (f : list string) (tags : gmap string string) :
  AddFields m f tags ∈ buildPodMetrics sm podInfo labelMatch ->
  labelMatch "image" = false ->
  labelMatch "version" = false ->
  match tags !! "image" with
  | None => tags !! "version" = None
  | Some image =>
      (count_char ":" image = 1 ->
       exists name version,
         image = name +:+ ":" +:+ version /\ tags !! "version" = Some version)
      /\ (count_char ":" image <> 1 -> tags !! "version" = None)
  end.
Proof.
  intros Hin Hi Hv. destruct (buildPodMetrics_tags _ _ _ _ _ _ Hin) as (_ & _ & Hver).
  exact (Hver Hi Hv).
Qed.

(** X10: [Gather] returns an error only when no URL is configured and the
    node list cannot be fetched; it then returns that very error and nothing
    has reached the accumulator.  With a URL configured it always returns
    nil, having made that one target's calls followed by a single
    [AddError] that carries what [gatherSummary] returned. *)
Theorem Gather_fails_only_on_discovery (k : Kubernetes) (c : Cluster)
    (a : Accumulator) (err : option Err) (a' : Accumulator) :
  Gather k c a err a' ->
  (forall e : Err,
      err = Some e -> URL k = "" /\ getNodeURLs c = inl e /\ a' = a)
  /\ (URL k <> "" ->
      err = None
      /\ a' = a ++ (gatherSummary k c (URL k)).1
                ++ [AddError (gatherSummary k c (URL k)).2]
      /\ Forall isAddFields (gatherSummary k c (URL k)).1).
Proof.
  intros Hg. destruct Hg as [Hne | e Hu Hn | urls s err Hu Hn Hr Hm].
  - split; [intros e He; discriminate|]. intros _. split; [reflexivity|].
    pose proof (gatherSummary_only_adds_fields k c (URL k)) as Hs.
    unfold task. destruct (gatherSummary k c (URL k)) as [calls r]. simpl.
    split; [reflexivity | exact Hs].
  - split; [|intros Hne; contradiction].
    intros e' [= <-]. auto.
  - split; [|intros Hne; contradiction].
    intros e He. subst err.
    pose proof (Gather_claims.Inv_reachable k c urls a s Hr) as Hi.
    pose proof (inv_main k c urls a s Hi) as Hmain. rewrite Hm in Hmain.
    destruct Hmain as [Hnone _]. discriminate.
Qed.

(** X11: what [Init] leaves.  When the label filter does not compile, [Init]
    returns that error, with the bearer token path already filled in and
    nothing else changed.  Otherwise it returns nil and the plugin has the
    compiled filter, the configured bearer token path and node metric name
    where they were given, and the defaults where they were empty: the
    service account token path and kubernetes_node.  TLS verification is
    switched off whenever no URL is configured, whatever the configuration
    says, and is left as configured otherwise; the URL and the label
    patterns are not touched; and a second [Init] changes nothing. *)
Theorem Init_fills_defaults
    (NewIncludeExcludeFilter : list string -> list string -> Err + (string -> bool))
    (p : Plugin) :
  (BearerToken (config p) = "" ->
   BearerToken (config (Init NewIncludeExcludeFilter p).1)
   = "/var/run/secrets/kubernetes.io/serviceaccount/token")
  /\ (BearerToken (config p) <> "" ->
      BearerToken (config (Init NewIncludeExcludeFilter p).1)
      = BearerToken (config p))
  /\ URL (config (Init NewIncludeExcludeFilter p).1) = URL (config p)
  /\ LabelInclude (config (Init NewIncludeExcludeFilter p).1)
     = LabelInclude (config p)
  /\ LabelExclude (config (Init NewIncludeExcludeFilter p).1)
     = LabelExclude (config p)
  /\ match NewIncludeExcludeFilter (LabelInclude (config p))
                                   (LabelExclude (config p)) with
     | inl err =>
         (Init NewIncludeExcludeFilter p).2 = Some err
         /\ NodeMetricName (config (Init NewIncludeExcludeFilter p).1)
            = NodeMetricName (config p)
         /\ InsecureSkipVerify (Init NewIncludeExcludeFilter p).1
            = InsecureSkipVerify p
     | inr f =>
         (Init NewIncludeExcludeFilter p).2 = None
         /\ labelFilter (config (Init NewIncludeExcludeFilter p).1) = f
         /\ BearerToken (config (Init NewIncludeExcludeFilter p).1) <> ""
         /\ NodeMetricName (config (Init NewIncludeExcludeFilter p).1) <> ""
         /\ (NodeMetricName (config p) = "" ->
             NodeMetricName (config (Init NewIncludeExcludeFilter p).1)
             = "kubernetes_node")
         /\ (NodeMetricName (config p) <> "" ->
             NodeMetricName (config (Init NewIncludeExcludeFilter p).1)
             = NodeMetricName (config p))
         /\ (URL (config p) = "" ->
             InsecureSkipVerify (Init NewIncludeExcludeFilter p).1 = true)
         /\ (URL (config p) <> "" ->
             InsecureSkipVerify (Init NewIncludeExcludeFilter p).1
             = InsecureSkipVerify p)
         /\ Init NewIncludeExcludeFilter (Init NewIncludeExcludeFilter p).1
            = ((Init NewIncludeExcludeFilter p).1, None)
     end.
Proof.
  destruct p as [[url token name incl excl lf] insecure].
  unfold Init, defaultServiceAccountPath. simpl.
  destruct (NewIncludeExcludeFilter incl excl) as [err|f] eqn:Hc; simpl.
  - destruct (String.eqb_spec token "") as [->|Ht]; simpl;
      repeat split; intros; congruence.
  - destruct (String.eqb_spec token "") as [->|Ht];
      destruct (String.eqb_spec name "") as [->|Hn];
      destruct (String.eqb_spec url "") as [->|Hu];
      simpl; rewrite ?Hc; simpl;
      repeat match goal with
             | |- context [String.eqb ?x ""] =>
                 destruct (String.eqb_spec x "") as [He|He];
                 [try discriminate He; try contradiction|]
             end;
      repeat split; try congruence; try discriminate; intros; try contradiction;
      try reflexivity.
    all: repeat match goal with
                | |- context [String.eqb ?x ""] =>
                    destruct (String.eqb_spec x "")
                end; congruence.
Qed.

Import fixtures more_fixtures.

(** The container point of the pod carries the accepted label and none of
    the rejected ones. *)
Lemma pod_tags_are_builtin_or_accepted_labels_witness :
  exists tags : gmap string string,
    AddFields "kubernetes_pod_container" podContainerFields tags
      ∈ buildPodMetrics one_pod (web_info "nginx:1.25") only_app
    /\ tags !! "app" = Some "shop"
    /\ tags !! "tier" = None
    /\ tags !! "node_name" = Some "node-1".
Proof.
  eexists. split; [vm_compute; apply list_elem_of_here|].
  split; [reflexivity|]. split; [reflexivity|].
  refine (proj2 (pod_tags_are_builtin_or_accepted_labels one_pod
                   (web_info "nginx:1.25") only_app
                   "kubernetes_pod_container" podContainerFields _ _) eq_refl).
  vm_compute. apply list_elem_of_here.
Defined.

(** The image nginx:1.25 gives the version tag 1.25. *)
Lemma version_tag_needs_exactly_one_colon_witness :
  (only_app "image" = false /\ only_app "version" = false)
  /\ exists tags : gmap string string,
       AddFields "kubernetes_pod_container" podContainerFields tags
         ∈ buildPodMetrics one_pod (web_info "nginx:1.25") only_app
       /\ tags !! "image" = Some "nginx:1.25"
       /\ exists name version,
            "nginx:1.25" = name +:+ ":" +:+ version
            /\ tags !! "version" = Some version.
Proof.
  split; [split; reflexivity|].
  assert (Hex : exists tags : gmap string string,
             AddFields "kubernetes_pod_container" podContainerFields tags
               ∈ buildPodMetrics one_pod (web_info "nginx:1.25") only_app
             /\ tags !! "image" = Some "nginx:1.25").
  { eexists. split; [vm_compute; apply list_elem_of_here | reflexivity]. }
  destruct Hex as (tags & Hin & Himg).
  pose proof (version_tag_needs_exactly_one_colon one_pod
                (web_info "nginx:1.25") only_app
                "kubernetes_pod_container" podContainerFields tags Hin
                eq_refl eq_refl) as Hv.
  rewrite Himg in Hv.
  exists tags. split; [exact Hin|]. split; [exact Himg|].
  apply (proj1 Hv). reflexivity.
Defined.

(** With a URL configured and the kubelet unreachable, [Gather] returns nil
    and the accumulator holds the one error. *)
Lemma Gather_fails_only_on_discovery_witness :
  Gather one_kubelet two_nodes [] None
    ([] ++ task one_kubelet two_nodes (URL one_kubelet))
  /\ [] ++ task one_kubelet two_nodes (URL one_kubelet)
     = [AddError (Some "connection refused")].
Proof.
  assert (Hg : Gather one_kubelet two_nodes [] None
                 ([] ++ task one_kubelet two_nodes (URL one_kubelet)))
    by (apply Gather_URL; discriminate).
  split; [exact Hg|].
  destruct (Gather_fails_only_on_discovery _ _ _ _ _ Hg) as [_ Hurl].
  destruct (Hurl ltac:(discriminate)) as (_ & -> & _). reflexivity.
Defined.

End Kubernetes_extras.

(** ** The internet speed input *)

Module Internet_speed_extras.
Import GoTime telegraf internet_speed internet_speed_terms.
Local Open Scope string_scope.
Local Open Scope list_scope.
Local Open Scope stdpp_scope.
Local Open Scope Z_scope.

(** The first match ends the loop, at its index. *)
Lemma selectLoop_first_match (Match : string -> bool) (l1 : list Server)
    (s : Server) (l2 : list Server) (index minLatency selectIndex : Z) :
  Forall (unmatched Match) l1 -> Match (ID s) = true ->
  selectLoop (Some Match) (l1 ++ s :: l2) index minLatency selectIndex
  = Some (index + Z.of_nat (length l1)).
Proof.
  intros Hl Hs. revert index minLatency selectIndex.
  induction Hl as [|x l1 Hx _ IH]; intros index minLatency selectIndex; simpl.
  - rewrite Hs. f_equal. lia.
  - unfold unmatched in Hx. rewrite Hx.
    destruct (_ && _); rewrite IH; f_equal; lia.
Qed.

(** Without a match the loop keeps the lowest latency seen so far. *)
Lemma selectLoop_no_match (Match : string -> bool) (rest : list Server)
    (index minLatency selectIndex : Z) :
  Forall (unmatched Match) rest ->
  exists r,
    selectLoop (Some Match) rest index minLatency selectIndex = Some r
    /\ ((r = selectIndex
         /\ Forall (fun x => 0 < Latency x -> minLatency <= Milliseconds (Latency x)) rest)
        \/ (exists s,
              rest !! Z.to_nat (r - index) = Some s
              /\ index <= r
              /\ 0 < Latency s
              /\ Milliseconds (Latency s) < minLatency
              /\ Forall (fun x => 0 < Latency x ->
                                  Milliseconds (Latency s) <= Milliseconds (Latency x))
                        rest)).
Proof.
  intros Hl. revert index minLatency selectIndex.
  induction Hl as [|x rest Hx _ IH]; intros index minLatency selectIndex; simpl.
  - eexists. split; [reflexivity|]. left. split; [reflexivity | constructor].
  - unfold unmatched in Hx. rewrite Hx.
    destruct (Z.ltb_spec 0 (Latency x)) as [Hpos|Hnp]; simpl.
    + destruct (Z.ltb_spec (Milliseconds (Latency x)) minLatency) as [Hlt|Hge].
      * destruct (IH (index + 1) (Milliseconds (Latency x)) index)
          as (r & Hr & [[-> Hall]|(s & Hs & Hi & Hp & Hm & Hall)]).
        -- exists index. split; [exact Hr|]. right. exists x.
           replace (index - index) with 0 by lia. simpl.
           repeat split; auto; try lia. constructor; [lia | exact Hall].
        -- exists r. split; [exact Hr|]. right. exists s.
           replace (Z.to_nat (r - index)) with (S (Z.to_nat (r - (index + 1)))) by lia.
           simpl. repeat split; auto; try lia. constructor; [lia | exact Hall].
      * destruct (IH (index + 1) minLatency selectIndex)
          as (r & Hr & [[-> Hall]|(s & Hs & Hi & Hp & Hm & Hall)]).
        -- exists selectIndex. split; [exact Hr|]. left.
           split; [reflexivity|]. constructor; [lia | exact Hall].
        -- exists r. split; [exact Hr|]. right. exists s.
           replace (Z.to_nat (r - index)) with (S (Z.to_nat (r - (index + 1)))) by lia.
           simpl. repeat split; auto; try lia. constructor; [lia | exact Hall].
    + destruct (IH (index + 1) minLatency selectIndex)
        as (r & Hr & [[-> Hall]|(s & Hs & Hi & Hp & Hm & Hall)]).
      * exists selectIndex. split; [exact Hr|]. left.
        split; [reflexivity|]. constructor; [lia | exact Hall].
      * exists r. split; [exact Hr|]. right. exists s.
        replace (Z.to_nat (r - index)) with (S (Z.to_nat (r - (index + 1)))) by lia.
        simpl. repeat split; auto; try lia. constructor; [lia | exact Hall].
Qed.

Lemma Milliseconds_below_max (d : Duration) :
  0 < d <= MaxInt64 -> Milliseconds d < MaxInt64.
Proof.
  unfold Milliseconds, MaxInt64. intros Hd.
  rewrite Z.quot_div_nonneg by lia.
  apply Z.div_lt_upper_bound; lia.
Qed.

(** With a filter set the loop answers, with the index it started from or
    with the index of a server of the list. *)
Lemma selectLoop_in_range (Match : string -> bool) (rest : list Server)
    (index minLatency selectIndex : Z) :
  exists r,
    selectLoop (Some Match) rest index minLatency selectIndex = Some r
    /\ (r = selectIndex \/ index <= r < index + Z.of_nat (length rest)).
Proof.
  revert index minLatency selectIndex.
  induction rest as [|x rest IH]; intros index minLatency selectIndex; simpl.
  - eexists. split; [reflexivity | left; reflexivity].
  - destruct (Match (ID x)); [eexists; split; [reflexivity | right; lia]|].
    destruct (_ && _).
    + destruct (IH (index + 1) (Milliseconds (Latency x)) index)
        as (r & Hr & Hrange).
      exists r. split; [exact Hr | right; lia].
    + destruct (IH (index + 1) minLatency selectIndex) as (r & Hr & Hrange).
      exists r. split; [exact Hr|]. destruct Hrange; [left; assumption | right; lia].
Qed.

(** X12: the first server the filter matches is chosen, whatever the
    latencies of the servers before and after it. *)
Theorem findClosestServer_first_match (net : Network) (is_ : InternetSpeed)
    (log : list LogEntry) (acc : Accumulator) (Match : string -> bool)
    (l1 : list Server) (s : Server) (l2 : list Server) :
  serverFilter is_ = Some Match ->
  FetchServers net (newClient net is_) = (l1 ++ s :: l2, None) ->
  Forall (fun x => Match (ID x) = false) l1 ->
  Match (ID s) = true ->
  findClosestServer net is_ log acc
  = Ret (withServer (withServers is_ (l1 ++ s :: l2)) s)
        (log ++ [DbgUsingServer (ID s) (Name s) (Host s)]) acc None.
Proof.
  intros Hf Hfetch Hl Hs. unfold findClosestServer. rewrite Hfetch. simpl.
  rewrite Hf.
  destruct (Z.ltb_spec (Z.of_nat (length (l1 ++ s :: l2))) 1) as [Hlen|_].
  { rewrite length_app in Hlen. simpl in Hlen. lia. }
  rewrite (selectLoop_first_match Match l1 s l2 0 MaxInt64 (-1) Hl Hs).
  destruct (Z.eqb_spec (0 + Z.of_nat (length l1)) (-1)) as [Hm|_]; [lia|]. simpl.
  replace (Z.to_nat (0 + Z.of_nat (length l1))) with (length l1) by lia.
  rewrite list_lookup_middle by reflexivity. reflexivity.
Qed.

(** X13: when the filter matches no server, the server chosen is one with
    the lowest latency in whole milliseconds among those with a positive
    latency; and when no server has a positive latency either, the call
    fails and the server chosen earlier, if any, is kept. *)
Theorem findClosestServer_lowest_latency (net : Network) (is_ : InternetSpeed)
    (log : list LogEntry) (acc : Accumulator) (Match : string -> bool)
    (fetched : list Server) :
  serverFilter is_ = Some Match ->
  FetchServers net (newClient net is_) = (fetched, None) ->
  fetched <> [] ->
  Forall (fun x => Match (ID x) = false) fetched ->
  Forall (fun x => Latency x <= MaxInt64) fetched ->
  (Forall (fun x => Latency x <= 0) fetched
   /\ findClosestServer net is_ log acc
      = Ret (withServers is_ fetched) log acc
            (Some "no server set: filter excluded all servers or no available server found"))
  \/ (exists s,
        s ∈ fetched
        /\ 0 < Latency s
        /\ Forall (fun x => 0 < Latency x ->
                            Milliseconds (Latency s) <= Milliseconds (Latency x))
                  fetched
        /\ findClosestServer net is_ log acc
           = Ret (withServer (withServers is_ fetched) s)
                 (log ++ [DbgUsingServer (ID s) (Name s) (Host s)]) acc None).
Proof.
  intros Hf Hfetch Hne Hl Hrange. unfold findClosestServer. rewrite Hfetch. simpl.
  rewrite Hf.
  destruct (Z.ltb_spec (Z.of_nat (length fetched)) 1) as [Hlen|_].
  { destruct fetched; [congruence | simpl in Hlen; lia]. }
  destruct (selectLoop_no_match Match fetched 0 MaxInt64 (-1) Hl)
    as (r & Hr & [[-> Hall]|(s & Hs & Hi & Hp & Hm & Hall)]); rewrite Hr.
  - left. simpl. split; [|reflexivity].
    rewrite Forall_forall in *. intros x Hx.
    destruct (Z.le_gt_cases (Latency x) 0) as [Hle|Hgt]; [exact Hle|].
    pose proof (Hall x Hx ltac:(lia)).
    pose proof (Milliseconds_below_max (Latency x) ltac:(split; [lia | auto])). lia.
  - right. exists s. rewrite Z.sub_0_r in Hs.
    split; [eapply list_elem_of_lookup_2; exact Hs|].
    split; [exact Hp|]. split; [exact Hall|].
    destruct (Z.eqb_spec r (-1)) as [Hm1|_]; [lia|]. simpl.
    rewrite Hs. reflexivity.
Qed.

(** What [findClosestServer] can leave, once a filter is set. *)
Lemma findClosestServer_returns (net : Network) (is_ : InternetSpeed)
    (log : list LogEntry) (acc : Accumulator) (Match : string -> bool) :
  serverFilter is_ = Some Match ->
  exists is' log' err,
    findClosestServer net is_ log acc = Ret is' log' acc err
    /\ TestMode is' = TestMode is_
    /\ (err = None -> exists s, server is' = Some s /\ s ∈ servers is').
Proof.
  intros Hf. unfold findClosestServer.
  destruct (FetchServers net (newClient net is_)) as [fetched [e|]]; simpl.
  - eexists _, _, _. split; [reflexivity|]. split; [reflexivity | discriminate].
  - destruct (Z.ltb_spec (Z.of_nat (length fetched)) 1) as [Hlen|Hlen].
    + eexists _, _, _. split; [reflexivity|]. split; [reflexivity | discriminate].
    + rewrite Hf.
      destruct (selectLoop_in_range Match fetched 0 MaxInt64 (-1))
        as (r & Hr & Hrange). rewrite Hr.
      destruct (Z.eqb_spec r (-1)) as [->|Hn]; simpl.
      * eexists _, _, _. split; [reflexivity|]. split; [reflexivity | discriminate].
      * destruct Hrange as [?|Hrange]; [contradiction|].
        destruct (lookup_lt_is_Some_2 fetched (Z.to_nat r) ltac:(lia)) as [s Hs].
        rewrite Hs. eexists _, _, _. split; [reflexivity|].
        split; [reflexivity|]. intros _. exists s. simpl.
        split; [reflexivity | eapply list_elem_of_lookup_2; exact Hs].
Qed.

Ltac in_list :=
  repeat first [apply list_elem_of_here | apply list_elem_of_further].

Ltac not_in_list :=
  let H := fresh in
  intros H;
  repeat (apply elem_of_cons in H; destruct H as [H|H]; [congruence|]);
  apply elem_of_nil in H; exact H.

Ltac run_tests :=
  repeat match goal with
         | |- context [match ?o with Some _ => _ | None => _ end] =>
             lazymatch o with
             | PingTest _ _ => destruct o
             | DownloadTest _ _ => destruct o
             | UploadTest _ _ => destruct o
             | MultiDownloadTest _ _ _ => destruct o
             | MultiUploadTest _ _ _ => destruct o
             | PacketLoss _ _ => destruct o
             | PacketLossMulti _ _ => destruct o
             end
         | |- context [if String.eqb ?a ?b then _ else _] =>
             destruct (String.eqb a b)
         end.

(** X14: [Gather] adds its point or nothing.  Once [Init] has set the
    filter [Gather] does not panic; when it returns an error the accumulator
    is as it was, and the error is that of finding a server, of the ping, of
    the download or of the upload test; when it returns nil exactly one
    point has been added, for the server in use.  A failing packet loss test
    is not among the errors. *)
Theorem Gather_adds_one_point_or_nothing (net : Network) (is_ : InternetSpeed)
    (log : list LogEntry) (acc : Accumulator) (Match : string -> bool) :
  serverFilter is_ = Some Match ->
  match Gather net is_ log acc with
  | Panic => False
  | Ret is' log' acc' (Some e) =>
      acc' = acc
      /\ exists cause,
           e ∈ [ "unable to find closest server: " +:+ cause;
                 "ping test failed: " +:+ cause;
                 "download test failed: " +:+ cause;
                 "upload test failed: " +:+ cause ]
  | Ret is' log' acc' None =>
      exists s,
        server is' = Some s
        /\ acc' = acc ++ [report is' s]
        /\ TestMode is' = TestMode is_
  end.
Proof.
  intros Hf. unfold Gather.
  assert (Htests : forall (is' : InternetSpeed) (log' : list LogEntry) (s : Server),
             server is' = Some s -> TestMode is' = TestMode is_ ->
             match
               match server is' with
               | None => Panic
               | Some srv =>
                   match PingTest net srv with
                   | Some err => Ret is' log' acc (Some ("ping test failed: " +:+ err))
                   | None =>
                       if String.eqb (TestMode is') testModeMulti then
                         match MultiDownloadTest net srv (servers is') with
                         | Some err =>
                             Ret is' log' acc (Some ("download test failed: " +:+ err))
                         | None =>
                             match MultiUploadTest net srv (servers is') with
                             | Some err =>
                                 Ret is' log' acc (Some ("upload test failed: " +:+ err))
                             | None =>
                                 Ret is'
                                   match PacketLossMulti net (map Host (servers is')) with
                                   | Some err => log' ++ [WarnPacketLoss err]
                                   | None => log'
                                   end
                                   (acc ++ [report is' srv]) None
                             end
                         end
                       else
                         match DownloadTest net srv with
                         | Some err =>
                             Ret is' log' acc (Some ("download test failed: " +:+ err))
                         | None =>
                             match UploadTest net srv with
                             | Some err =>
                                 Ret is' log' acc (Some ("upload test failed: " +:+ err))
                             | None =>
                                 Ret is'
                                   match PacketLoss net (Host srv) with
                                   | Some err => log' ++ [WarnPacketLoss err]
                                   | None => log'
                                   end
                                   (acc ++ [report is' srv]) None
                             end
                         end
                   end
               end
             with
             | Panic => False
             | Ret is'' log'' acc' (Some e) =>
                 acc' = acc
                 /\ exists cause,
                      e ∈ [ "unable to find closest server: " +:+ cause;
                            "ping test failed: " +:+ cause;
                            "download test failed: " +:+ cause;
                            "upload test failed: " +:+ cause ]
             | Ret is'' log'' acc' None =>
                 exists s0,
                   server is'' = Some s0
                   /\ acc' = acc ++ [report is'' s0]
                   /\ TestMode is'' = TestMode is_
             end).
  { intros is' log' s Hs Hm. rewrite Hs.
    destruct (PingTest net s) as [e|];
      [split; [reflexivity|]; exists e; in_list|].
    destruct (String.eqb (TestMode is') testModeMulti).
    - destruct (MultiDownloadTest net s (servers is')) as [e|];
        [split; [reflexivity|]; exists e; in_list|].
      destruct (MultiUploadTest net s (servers is')) as [e|];
        [split; [reflexivity|]; exists e; in_list|].
      exists s. auto.
    - destruct (DownloadTest net s) as [e|];
        [split; [reflexivity|]; exists e; in_list|].
      destruct (UploadTest net s) as [e|];
        [split; [reflexivity|]; exists e; in_list|].
      exists s. auto. }
  destruct (negb (Cache is_) || match server is_ with Some _ => false | None => true end)
    eqn:Hfind.
  - destruct (findClosestServer_returns net is_ log acc Match Hf)
      as (is' & log' & err & Hret & Hmode & Hsrv).
    rewrite Hret. destruct err as [e|].
    + split; [reflexivity|]. exists e. in_list.
    + destruct (Hsrv eq_refl) as (s & Hs & _). exact (Htests is' log' s Hs Hmode).
  - apply orb_false_iff in Hfind. destruct Hfind as [_ Hsome].
    destruct (server is_) as [s|] eqn:Hs; [|discriminate].
    pose proof (Htests is_ log s Hs eq_refl) as Ht. rewrite Hs in Ht. exact Ht.
Qed.

(** X15: with caching on and a server chosen, [Gather] does not look for
    a server again.  Its outcome does not depend on the group id of the
    process or on what fetching the server list would answer; it does not
    panic, with or without a filter; no choice of server is logged, the
    only entry it may write being the packet loss warning; and the point it
    adds on success is the one of the server chosen before: its id and host,
    and the configured test mode. *)
Theorem Gather_cached_server_is_kept (net : Network) (is_ : InternetSpeed)
    (log : list LogEntry) (acc : Accumulator) (s : Server) :
  Cache is_ = true ->
  server is_ = Some s ->
  (forall (egid : Z) (fetch : Client -> list Server * option Err),
      Gather (withFetch net egid fetch) is_ log acc = Gather net is_ log acc)
  /\ match Gather net is_ log acc with
     | Panic => False
     | Ret _ log' acc' err =>
         (log' = log \/ exists e, log' = log ++ [WarnPacketLoss e])
         /\ match err with
            | Some _ => acc' = acc /\ log' = log
            | None =>
                exists tags : gmap string string,
                  acc' = acc ++ [AddFields "internet_speed"
                                   ["download"; "upload"; "latency"; "jitter";
                                    "packet_loss"; "location"] tags]
                  /\ tags !! "server_id" = Some (ID s)
                  /\ tags !! "source" = Some (Host s)
                  /\ tags !! "test_mode" = Some (TestMode is_)
                  /\ dom tags = {["server_id"; "source"; "test_mode"]}
            end
     end.
Proof.
  intros Hc Hs. unfold Gather. rewrite Hc, Hs. simpl. split; [reflexivity|].
  assert (Hpoint : exists tags : gmap string string,
             acc ++ [report is_ s]
             = acc ++ [AddFields "internet_speed"
                         ["download"; "upload"; "latency"; "jitter";
                          "packet_loss"; "location"] tags]
             /\ tags !! "server_id" = Some (ID s)
             /\ tags !! "source" = Some (Host s)
             /\ tags !! "test_mode" = Some (TestMode is_)
             /\ dom tags = {["server_id"; "source"; "test_mode"]}).
  { eexists. split; [reflexivity|].
    split; [apply lookup_insert_eq|].
    split; [rewrite lookup_insert_ne by discriminate; apply lookup_insert_eq|].
    split; [rewrite !lookup_insert_ne by discriminate; apply lookup_insert_eq|].
    rewrite !dom_insert_L, dom_empty_L. set_solver. }
  run_tests; (split; [eauto | first [split; reflexivity | exact Hpoint]]).
Qed.

(** X16: [Init] accepts the test modes single and multi and the empty one,
    which it turns into single, and rejects every other with an error that
    leaves the plugin untouched; it fails as well when the server filter does
    not compile.  After a successful [Init] the test mode is single or multi,
    the filter is set, and a second [Init] changes nothing. *)
Theorem Init_test_mode
    (NewIncludeExcludeFilterDefaults :
       list string -> list string -> Err + (string -> bool))
    (Quote : string -> string) (is_ : InternetSpeed) :
  match Init NewIncludeExcludeFilterDefaults Quote is_ with
  | (is', None) =>
      TestMode is_ ∈ [""; "single"; "multi"]
      /\ TestMode is' ∈ ["single"; "multi"]
      /\ (TestMode is_ = "" -> TestMode is' = "single")
      /\ (TestMode is_ <> "" -> TestMode is' = TestMode is_)
      /\ (exists f,
            NewIncludeExcludeFilterDefaults (ServerIDInclude is_) (ServerIDExclude is_)
            = inr f
            /\ serverFilter is' = Some f)
      /\ server is' = server is_
      /\ Init NewIncludeExcludeFilterDefaults Quote is' = (is', None)
  | (is', Some e) =>
      ((TestMode is_ ∉ [""; "single"; "multi"])
       /\ e = "unrecognized test mode: " +:+ Quote (TestMode is_)
       /\ is' = is_)
      \/ (TestMode is_ ∈ [""; "single"; "multi"]
          /\ exists cause,
               NewIncludeExcludeFilterDefaults (ServerIDInclude is_) (ServerIDExclude is_)
               = inl cause
               /\ e = "error compiling server ID filters: " +:+ cause)
  end.
Proof.
  unfold Init, testModeSingle, testModeMulti.
  destruct (String.eqb_spec (TestMode is_) "single") as [Hs|Hs];
    destruct (String.eqb_spec (TestMode is_) "multi") as [Hm|Hm];
    destruct (String.eqb_spec (TestMode is_) "") as [He|He];
    simpl; try congruence;
    try (destruct (NewIncludeExcludeFilterDefaults _ _) as [cause|f] eqn:Hc; simpl;
         [right; split; [rewrite ?Hs, ?Hm, ?He; in_list | eauto]
         | rewrite ?Hs, ?Hm, ?He; rewrite ?Hc; simpl;
           repeat split; try (in_list; fail); try congruence; eauto;
           destruct is_; simpl in *; subst; reflexivity ]).
  left. split; [not_in_list | split; reflexivity].
Qed.

Import more_fixtures.

(** The filter matches the slow server, listed first: it is chosen, the
    fast one notwithstanding. *)
Lemma findClosestServer_first_match_witness :
  (serverFilter (speed (String.eqb "1") false None) = Some (String.eqb "1")
   /\ FetchServers lossy (newClient lossy (speed (String.eqb "1") false None))
      = ([] ++ slow :: [fast; unknown], None)
   /\ String.eqb "1" (ID slow) = true)
  /\ exists is' log',
       findClosestServer lossy (speed (String.eqb "1") false None) [] []
       = Ret is' log' [] None
       /\ server is' = Some slow.
Proof.
  split; [repeat split|].
  rewrite (findClosestServer_first_match lossy (speed (String.eqb "1") false None)
             [] [] (String.eqb "1") [] slow [fast; unknown]
             eq_refl eq_refl (Forall_nil_2 _) eq_refl).
  eexists _, _. split; reflexivity.
Defined.

(** The filter matches no server: the fast one is chosen. *)
Lemma findClosestServer_lowest_latency_witness :
  (serverFilter (speed (fun _ => false) false None) = Some (fun _ => false)
   /\ FetchServers lossy (newClient lossy (speed (fun _ => false) false None))
      = ([slow; fast; unknown], None))
  /\ exists is' log' s,
       findClosestServer lossy (speed (fun _ => false) false None) [] []
       = Ret is' log' [] None
       /\ server is' = Some s
       /\ 0 < Latency s.
Proof.
  split; [split; reflexivity|].
  destruct (findClosestServer_lowest_latency lossy (speed (fun _ => false) false None)
              [] [] (fun _ => false) [slow; fast; unknown]
              eq_refl eq_refl ltac:(discriminate)
              ltac:(repeat constructor)
              ltac:(repeat constructor; unfold MaxInt64; simpl; lia))
    as [[Hnone _]|(s & _ & Hpos & _ & Hfind)].
  - exfalso. inversion Hnone as [|x l Hx _]. simpl in Hx. lia.
  - rewrite Hfind. eexists _, _, s. split; [reflexivity|]. split; [reflexivity | exact Hpos].
Defined.

(** Every test passes but the packet loss test: [Gather] returns nil with
    its one point. *)
Lemma Gather_adds_one_point_or_nothing_witness :
  serverFilter (speed (fun _ => false) false None) = Some (fun _ => false)
  /\ exists is' log' acc',
       Gather lossy (speed (fun _ => false) false None) [] [] = Ret is' log' acc' None
       /\ length acc' = 1%nat.
Proof.
  split; [reflexivity|].
  pose proof (Gather_adds_one_point_or_nothing lossy
                (speed (fun _ => false) false None) [] [] (fun _ => false) eq_refl) as H.
  destruct (Gather lossy (speed (fun _ => false) false None) [] [])
    as [is' log' acc' [e|]|] eqn:Hg.
  - vm_compute in Hg. discriminate Hg.
  - destruct H as (s & _ & -> & _). eexists _, _, _. split; reflexivity.
  - contradiction.
Defined.

(** With the slow server cached, [Gather] reports on it, whatever fetching
    the list would answer, and warns about the packet loss test. *)
Lemma Gather_cached_server_is_kept_witness :
  (Cache (speed (fun _ => false) true (Some slow)) = true
   /\ server (speed (fun _ => false) true (Some slow)) = Some slow)
  /\ Gather (withFetch lossy 0 (fun _ => ([], Some "unreachable")))
            (speed (fun _ => false) true (Some slow)) [] []
     = Gather lossy (speed (fun _ => false) true (Some slow)) [] []
  /\ exists is' tags,
       Gather lossy (speed (fun _ => false) true (Some slow)) [] []
       = Ret is' [WarnPacketLoss "not supported"]
             [AddFields "internet_speed"
                ["download"; "upload"; "latency"; "jitter"; "packet_loss"; "location"]
                tags] None
       /\ tags !! "server_id" = Some "1"
       /\ tags !! "source" = Some "oslo.example:8080".
Proof.
  split; [split; reflexivity|].
  destruct (Gather_cached_server_is_kept lossy
              (speed (fun _ => false) true (Some slow)) [] [] slow
              eq_refl eq_refl) as [Hfetch Hret].
  split; [exact (Hfetch 0 (fun _ => ([], Some "unreachable")))|].
  destruct (Gather lossy (speed (fun _ => false) true (Some slow)) [] [])
    as [is' log' acc' [e|]|] eqn:Hg.
  - vm_compute in Hg. discriminate Hg.
  - destruct Hret as (_ & tags & -> & Hid & Hsrc & _).
    exists is', tags.
    assert (Hlog : log' = [WarnPacketLoss "not supported"]).
    { vm_compute in Hg. injection Hg as _ <- _. reflexivity. }
    rewrite Hlog. split; [reflexivity|]. split; [exact Hid | exact Hsrc].
  - contradiction.
Defined.

End Internet_speed_extras.
